(** * DESCLamp: the [Candidates] workflow of [desclamp/postage.py]

    A shallow embedding of the three methods of the class [Candidates]
    ([catalog_query], [make_postage_stamps], [display_cutouts]) together with
    the properties stated about them.

    The methods are glue around external collaborators (the GCR catalog, the
    LSST data butler, numpy, matplotlib).  Python exceptions are an error
    monad; the calls a method makes to a collaborator whose order matters
    (the catalog, the plotting backend) are recorded in a trace, so that
    "is checked before the query is executed" and "draws the same thing" are
    statements about that trace. *)

From Stdlib Require Import ZArith List String Ascii Bool Lia.
From Stdlib Require Import DecimalString Sorted OrderedTypeEx.
From Corelib Require Import SpecFloat.
Import ListNotations.

Local Open Scope string_scope.
Local Open Scope list_scope.

(** ** Python control flow: exceptions and a trace of external calls *)

Module Py.

(** The exceptions the modelled code can raise.  [Foreign] stands for any
    exception raised inside an external collaborator. *)
Inductive exn : Type :=
| UnboundLocalError (name : string)
| IndexError
| AssertionError
| OverflowError
| Foreign (msg : string).

Inductive result (A : Type) : Type :=
| Ok (a : A)
| Raise (e : exn).
Arguments Ok {A} a.
Arguments Raise {A} e.

Definition is_ok {A} (r : result A) : bool :=
  match r with Ok _ => true | Raise _ => false end.

(** Plain error monad, for code whose external calls are read-only. *)
Definition rbind {A B} (r : result A) (k : A -> result B) : result B :=
  match r with
  | Ok a => k a
  | Raise e => Raise e
  end.

(** [for x in xs: body] collecting one value per iteration; the first
    exception aborts the loop. *)
Fixpoint rmap {A B} (f : A -> result B) (xs : list A) : result (list B) :=
  match xs with
  | [] => Ok []
  | x :: xs' => rbind (f x) (fun y => rbind (rmap f xs') (fun ys => Ok (y :: ys)))
  end.

(** [xs[i]] for a non-negative index. *)
Definition getitem {A} (xs : list A) (i : nat) : result A :=
  match nth_error xs i with
  | Some x => Ok x
  | None => Raise IndexError
  end.

Section Traced.
(** [E] is the type of observable calls. A computation extends the trace
    it is given and either returns or raises. *)
Context {E : Type}.

Definition M (A : Type) : Type := list E -> list E * result A.

Definition ret {A} (a : A) : M A := fun tr => (tr, Ok a).

Definition raise {A} (e : exn) : M A := fun tr => (tr, Raise e).

Definition bind {A B} (m : M A) (k : A -> M B) : M B :=
  fun tr =>
    match m tr with
    | (tr', Ok a) => k a tr'
    | (tr', Raise e) => (tr', Raise e)
    end.

Definition emit (e : E) : M unit := fun tr => (tr ++ [e], Ok tt).

Definition lift {A} (r : result A) : M A := fun tr => (tr, r).

(** [assert b] *)
Definition py_assert (b : bool) : M unit :=
  if b then ret tt else raise AssertionError.

(** Reading a local variable that may not have been assigned. *)
Definition load_local {A} (name : string) (v : option A) : M A :=
  match v with
  | Some a => ret a
  | None => raise (UnboundLocalError name)
  end.

(** [for x in xs: body] *)
Fixpoint for_each {A} (xs : list A) (body : A -> M unit) : M unit :=
  match xs with
  | [] => ret tt
  | x :: xs' => bind (body x) (fun _ => for_each xs' body)
  end.

(** Run from the empty trace. *)
Definition run {A} (m : M A) : list E * result A := m [].
End Traced.

Arguments M : clear implicits.

End Py.

Import Py.

Declare Scope py_scope.
Delimit Scope py_scope with py.
Notation "x <- m ;; k" := (bind m (fun x => k))
  (at level 61, m at next level, right associativity) : py_scope.
Notation "m ;;; k" := (bind m (fun _ => k))
  (at level 61, right associativity) : py_scope.
Notation "x <~ r ;; k" := (rbind r (fun x => k))
  (at level 61, r at next level, right associativity) : py_scope.

(** ** Python and numpy values *)

(** A Python [float] is an IEEE 754 binary64 number. *)
Definition float : Type := spec_float.
Definition prec : Z := 53.
Definition emax : Z := 1024.

(** [str(n)] for a Python integer. *)
Definition str_int (n : Z) : string := NilZero.string_of_int (Z.to_int n).

(** numpy stores strings in fixed-width cells padded with NUL, so a string
    read back from an array has lost its trailing NUL characters. *)
Fixpoint np_str (s : string) : string :=
  match s with
  | EmptyString => EmptyString
  | String c s' =>
      match np_str s' with
      | EmptyString => if Ascii.eqb c zero then EmptyString else String c EmptyString
      | t => String c t
      end
  end.

(** Insertion into a strictly increasing list; an element already there is
    not inserted again. *)
Fixpoint insert_unique (x : string) (l : list string) : list string :=
  match l with
  | [] => [x]
  | y :: l' =>
      match String.compare x y with
      | Lt => x :: l
      | Eq => l
      | Gt => y :: insert_unique x l'
      end
  end.

(** [np.unique(l)] on a list of strings: the distinct elements in increasing
    order (code-point order, a proper prefix first). *)
Definition np_unique (l : list string) : list string :=
  fold_right insert_unique [] (map np_str l).

(** ** Catalog rows and the catalog handle *)

Inductive value : Type :=
| VInt (n : Z)
| VFloat (x : float)
| VStr (s : string).

(** One catalog entry, as the row [object_this] that [iterrows] yields. *)
Record ObjectRow : Type := mkRow {
  objectId : Z;
  ra : float;
  dec : float;
  tract : Z;
  patch : string;
  extra : list (string * value)
}.

Definition ObjectTable : Type := list ObjectRow.

(** The GCR catalog [self.cat]: schema introspection and retrieval. *)
Record Catalog : Type := mkCatalog {
  has_quantities : list string -> bool;
  get_quantities : list string -> string -> string -> result (list ObjectRow)
}.

(** [pd.DataFrame(objects)] keeps the rows in the order the catalog returned
    them. *)
Definition pd_DataFrame (objects : list ObjectRow) : ObjectTable := objects.

(** The calls [catalog_query] makes on [self.cat], in order. *)
Inductive CatalogCall : Type :=
| HasQuantities (columns : list string) (answer : bool)
| GetQuantities (columns : list string) (filters : string) (native_filters : string).

(** ** Python floats *)

(** [0.5] *)
Definition half : float := S754_finite false 4503599627370496 (-53).

(** [1.0] *)
Definition one : float := S754_finite false 4503599627370496 (-52).

(** [float(n)] as done implicitly by [n * 0.5] or [np.sqrt(n)]: rounded to
    nearest even; an integer too large for binary64 raises. *)
Definition float_of_int (n : Z) : result float :=
  match binary_normalize prec emax n 0 false with
  | S754_infinity _ => Raise OverflowError
  | f => Ok f
  end.

(** [int(x)]: truncation toward zero. *)
Definition int_of_float (x : float) : result Z :=
  match x with
  | S754_zero _ => Ok 0%Z
  | S754_finite s m e =>
      let a := match e with
               | Zneg p => Z.shiftr (Zpos m) (Zpos p)
               | _ => Z.shiftl (Zpos m) e
               end in
      Ok (if s then Z.opp a else a)
  | S754_infinity _ => Raise OverflowError
  | S754_nan => Raise (Foreign "ValueError")
  end.

(** ** The LSST stack: sky map, geometry, butler *)

(** [lsst.geom.Point2D], the result of [skyToPixel]. *)
Record Point2D : Type := mkPoint2D { getX : float; getY : float }.

(** [lsst.geom.ExtentI(width, height)] *)
Record ExtentI : Type := mkExtentI { getWidth : Z; getHeight : Z }.

(** The opaque objects of the stack and the operations the code calls on
    them.  Each operation that can raise returns a [result]. *)
Class Lsst : Type := {
  SpherePoint : Type;
  SkyMap : Type;
  TractInfo : Type;
  SkyWcs : Type;
  Point2I : Type;
  Exposure : Type;
  PropertyList : Type;
  (** [lsst.geom.SpherePoint(ra, dec, lsst.geom.degrees)] *)
  SpherePoint_degrees : float -> float -> result SpherePoint;
  (** [skymap.findTract(radec)] *)
  findTract : SkyMap -> SpherePoint -> result TractInfo;
  (** [tractInfo.getWcs()] *)
  tract_getWcs : TractInfo -> SkyWcs;
  (** [wcs.skyToPixel(radec)] *)
  skyToPixel : SkyWcs -> SpherePoint -> result Point2D;
  (** [lsst.geom.Point2I((x, y))] on a pair of floats: the conversion to
      integer pixel indices is done inside the binding. *)
  Point2I_of_floats : float * float -> result Point2I;
  (** [exposure.getWcs()] *)
  exposure_getWcs : Exposure -> SkyWcs;
  (** [wcs.getFitsMetadata()] *)
  getFitsMetadata : SkyWcs -> result PropertyList
}.

(** [lsst.geom.BoxI(corner, dimensions)] *)
Record BoxI `{Lsst} : Type := mkBoxI { box_corner : Point2I; box_dimensions : ExtentI }.
Arguments mkBoxI {_} _ _.

(** The data butler [self.butler], by dataset type. *)
Record Butler `{Lsst} : Type := mkButler {
  (** [butler.get('deepCoadd_skyMap')] *)
  get_deepCoadd_skyMap : result SkyMap;
  (** [butler.get("deepCoadd_sub", bbox=, tract=, patch=, filter=)] *)
  get_deepCoadd_sub : BoxI -> Z -> string -> string -> result Exposure
}.
Arguments mkButler {_} _ _.

(** The dictionary [cutouts] with its three keys. *)
Record CutoutSet `{Lsst} : Type := mkCutouts {
  images : list (list Exposure);
  wcs : list PropertyList;
  GCR : list ObjectRow
}.
Arguments mkCutouts {_} _ _ _.

(** ** Catalog and data-release services *)

(** The modules [GCRCatalogs] and [desc_dc2_dm_data], as [catalog_setup]
    uses them. *)
Record Services `{Lsst} : Type := mkServices {
  (** [GCRCatalogs.get_available_catalogs(names_only=, name_contains=)] *)
  get_available_catalogs : bool -> string -> result (list string);
  (** [GCRCatalogs.load_catalog(name)] *)
  load_catalog : string -> result Catalog;
  (** [desc_dc2_dm_data.get_butler(version)] *)
  get_butler : string -> result Butler
}.
Arguments mkServices {_} _ _ _.

(** The calls [catalog_setup] makes on these modules, in order. *)
Inductive ServiceCall : Type :=
| GetAvailableCatalogs (names_only : bool) (name_contains : string)
| LoadCatalog (name : string)
| GetButler (version : string).

(** ** RGB composition and the plotting backend *)

Class Plotting `{Lsst} : Type := {
  RGBImage : Type;
  WCS : Type;
  (** [rgb.makeRGB( *image, dataRange = 2, Q = 8)] *)
  makeRGB : list Exposure -> Z -> Z -> result RGBImage;
  (** [astropy.wcs.WCS(header)] *)
  astropy_WCS : PropertyList -> result WCS;
  (** the number of coordinate helpers in [ax.coords] for a projection *)
  ax_coords : WCS -> nat
}.

(** The matplotlib calls [display_cutouts] makes, in order.  A sub-plot is
    recorded with the cell [(row, column)] of the grid it occupies. *)
Inductive PlotCall `{Plotting} : Type :=
| Figure (width height dpi : Z)
| GridSpec (nrows ncols : nat)
| Subplot (cell : nat * nat) (projection : WCS) (label : string)
| Imshow (image_rgb : RGBImage) (origin : string)
| SetTicklabel (coord : nat) (exclude_overlapping : bool) (size : Z)
| SetAxislabel (coord : nat) (text : string) (size : Z).

(** [gs[i]] on a [GridSpec(nrows, ncols)] with a non-negative integer key:
    the key is a flat row-major index, refused when it is not below
    [nrows * ncols]. *)
Definition GridSpec_getitem (nrows ncols i : nat) : result (nat * nat) :=
  if (i <? nrows * ncols)%nat then Ok (i / ncols, i mod ncols)%nat
  else Raise IndexError.


Module Candidates.

Local Open Scope py_scope.

Definition base_columns : list string :=
  ["objectId"; "ra"; "dec"; "tract"; "patch"].

(** Lines 59-62: the value of [columns_to_get] after the first [if]. *)
Definition columns_to_get (columns : option (list string)) : list string :=
  match columns with
  | Some cols => np_unique (base_columns ++ cols)
  | None => base_columns
  end.

(** Lines 68-70: the string accumulated in [filters]. *)
Definition tract_filter (tracts : list Z) : result string :=
  t0 <~ getitem tracts 0 ;;
  Ok (fold_left
        (fun (filters : string) (t : Z) =>
           (filters ++ " | (tract == " ++ str_int t ++ ")")%string)
        (skipn 1 tracts)
        ("(tract == " ++ str_int t0 ++ ")")%string).

Definition catalog_query (cat : Catalog) (query : string)
    (columns : option (list string)) (tracts : option (list Z))
    : M CatalogCall ObjectTable :=
  let columns_to_get := columns_to_get columns in
  let ok := has_quantities cat columns_to_get in
  emit (HasQuantities columns_to_get ok) ;;;
  py_assert ok ;;;
  filters <- match tracts with
             | Some ts => f <- lift (tract_filter ts) ;; ret (Some f)
             | None => ret None
             end ;;
  native_filters <- load_local "filters" filters ;;
  emit (GetQuantities columns_to_get query native_filters) ;;;
  objects <- lift (get_quantities cat columns_to_get query native_filters) ;;
  ret (pd_DataFrame objects).

Section Stamps.
Context `{Lsst}.

(** The characters of [bands], each as a one-character string. *)
Definition band_letters (bands : string) : list string :=
  map (fun c => String c EmptyString) (list_ascii_of_string bands).

(** Line 98: [center.x - cutout_size*0.5] (and the same for [y]). *)
Definition corner_coordinate (c : float) (cutout_size : Z) : result float :=
  size <~ float_of_int cutout_size ;;
  Ok (SFsub prec emax c (SFmul prec emax size half)).

(** Lines 96-98: the bounding box of one object. *)
Definition cutout_bbox (skymap : SkyMap) (cutout_extent : ExtentI)
    (cutout_size : Z) (object_this : ObjectRow) : result BoxI :=
  radec <~ SpherePoint_degrees (ra object_this) (dec object_this) ;;
  tractInfo <~ findTract skymap radec ;;
  center <~ skyToPixel (tract_getWcs tractInfo) radec ;;
  x <~ corner_coordinate (getX center) cutout_size ;;
  y <~ corner_coordinate (getY center) cutout_size ;;
  corner <~ Point2I_of_floats (x, y) ;;
  Ok (mkBoxI corner cutout_extent).

(** Lines 100-105: the list comprehension over [bands]. *)
Definition fetch_cutout (butler : Butler) (bbox : BoxI)
    (object_this : ObjectRow) (bands : string) : result (list Exposure) :=
  rmap (fun band => get_deepCoadd_sub butler bbox (tract object_this)
                      (patch object_this) band)
       (band_letters bands).

(** Lines 96-108: one iteration of the loop over the rows. *)
Definition stamp_step (butler : Butler) (skymap : SkyMap)
    (cutout_extent : ExtentI) (cutout_size : Z) (bands : string)
    (cutouts : CutoutSet) (object_this : ObjectRow) : result CutoutSet :=
  bbox <~ cutout_bbox skymap cutout_extent cutout_size object_this ;;
  cutout <~ fetch_cutout butler bbox object_this bands ;;
  let cutouts := mkCutouts (images cutouts ++ [cutout]) (wcs cutouts)
                           (GCR cutouts) in
  let cutouts := mkCutouts (images cutouts) (wcs cutouts)
                           (GCR cutouts ++ [object_this]) in
  first <~ getitem cutout 0 ;;
  metadata <~ getFitsMetadata (exposure_getWcs first) ;;
  Ok (mkCutouts (images cutouts) (wcs cutouts ++ [metadata]) (GCR cutouts)).

(** [for (_, object_this) in objects.iterrows(): ...] threading the
    dictionary [cutouts]. *)
Fixpoint stamp_loop (step : CutoutSet -> ObjectRow -> result CutoutSet)
    (objects : list ObjectRow) (cutouts : CutoutSet) : result CutoutSet :=
  match objects with
  | [] => Ok cutouts
  | object_this :: rest =>
      cutouts' <~ step cutouts object_this ;; stamp_loop step rest cutouts'
  end.

Definition make_postage_stamps (butler : Butler) (objects : ObjectTable)
    (cutout_size : Z) (bands : string) : result CutoutSet :=
  skymap <~ get_deepCoadd_skyMap butler ;;
  let cutout_extent := mkExtentI cutout_size cutout_size in
  let cutouts := mkCutouts [] [] [] in
  stamp_loop (stamp_step butler skymap cutout_extent cutout_size bands)
             objects cutouts.

End Stamps.

Section Display.
Context `{Plotting}.

(** Line 118: [int(np.sqrt(n)+1)].  The square root of a list length is
    taken in binary64; for a length below [2^50] the two roundings
    stay under the gap between [sqrt(n) + 1] and the next integer, so
    the truncation is the integer square root plus one, which is what
    is computed here ([grid_side_f64] is the binary64 computation). *)
Definition grid_side (n : nat) : nat := Nat.sqrt n + 1.

(** Lines 121-131: the body of the loop for index [i]. *)
Definition draw_cutout (cutouts : CutoutSet) (side : nat) (i : nat)
    : M PlotCall unit :=
  image <- lift (getitem (images cutouts) i) ;;
  image_rgb <- lift (makeRGB image 2 8) ;;
  cell <- lift (GridSpec_getitem side side i) ;;
  header <- lift (getitem (wcs cutouts) i) ;;
  projection <- lift (astropy_WCS header) ;;
  row <- lift (getitem (GCR cutouts) i) ;;
  emit (Subplot cell projection (str_int (objectId row))) ;;;
  emit (Imshow image_rgb "lower") ;;;
  for_each (seq 0 (ax_coords projection))
    (fun c => emit (SetTicklabel c true 10) ;;; emit (SetAxislabel c "" 0)).

Definition display_cutouts (cutouts : CutoutSet) (cutout_size : Z)
    : M PlotCall unit :=
  let n := List.length (images cutouts) in
  emit (Figure 36 36 100) ;;;
  emit (GridSpec (grid_side n) (grid_side n)) ;;;
  for_each (seq 0 n) (draw_cutout cutouts (grid_side n)).

End Display.

Section Setup.
Context `{Lsst}.

(** Lines 23-38: [catalog_setup].  The list of available catalogs is asked
    for and dropped. *)
Definition catalog_setup (services : Services) (dc2_data_version : string)
    : M ServiceCall (Catalog * Butler) :=
  emit (GetAvailableCatalogs true dc2_data_version) ;;;
  _ <- lift (get_available_catalogs services true dc2_data_version) ;;
  emit (LoadCatalog ("dc2_object_run" ++ dc2_data_version)%string) ;;;
  cat <- lift (load_catalog services
                 ("dc2_object_run" ++ dc2_data_version)%string) ;;
  emit (GetButler dc2_data_version) ;;;
  butler <- lift (get_butler services dc2_data_version) ;;
  ret (cat, butler).

(** The attributes of a [Candidates] object. *)
Record Self : Type := mkSelf { self_cat : Catalog; self_butler : Butler }.

(** Lines 43-45: [Candidates.__init__]. *)
Definition __init__ (services : Services) (dc2_data_version : string)
    : M ServiceCall Self :=
  handles <- catalog_setup services dc2_data_version ;;
  ret (mkSelf (fst handles) (snd handles)).

End Setup.

End Candidates.

Import Candidates.

(** ** Vocabulary of the statements *)

(** Strict code-point order on strings. *)
Definition str_lt (a b : string) : Prop := String.compare a b = Lt.

(** The column list a catalog call was given. *)
Definition call_columns (c : CatalogCall) : list string :=
  match c with
  | HasQuantities columns _ => columns
  | GetQuantities columns _ _ => columns
  end.

(** The disjunction [(tract == t1) | ... | (tract == tk)] as the
    specification writes it: one clause per tract, joined by [" | "]. *)
Definition tract_disjunction (tracts : list Z) : string :=
  String.concat " | "
    (map (fun t => ("(tract == " ++ str_int t ++ ")")%string) tracts).

Section StampVocabulary.
Context `{Lsst}.

(** [cutout] and [metadata] are what the loop body computes for the row
    [object_this]: the per-band sub-images at the row's bounding box,
    tract and patch, and the FITS metadata of the first of them. *)
Definition stamp_of (butler : Butler) (skymap : SkyMap) (cutout_size : Z)
    (bands : string) (object_this : ObjectRow)
    (entry : list Exposure * PropertyList) : Prop :=
  exists bbox first,
    cutout_bbox skymap (mkExtentI cutout_size cutout_size) cutout_size
                object_this = Ok bbox /\
    fetch_cutout butler bbox object_this bands = Ok (fst entry) /\
    getitem (fst entry) 0 = Ok first /\
    getFitsMetadata (exposure_getWcs first) = Ok (snd entry).
End StampVocabulary.

Section PlotVocabulary.
Context `{Plotting}.

(** The grid cells of the sub-plots created in a trace, in order. *)
Fixpoint subplot_cells (tr : list PlotCall) : list (nat * nat) :=
  match tr with
  | [] => []
  | Subplot cell _ _ :: tr' => cell :: subplot_cells tr'
  | _ :: tr' => subplot_cells tr'
  end.

(** The cell of flat index [i] in a grid with [side] columns. *)
Definition cell_of (side i : nat) : nat * nat := (i / side, i mod side)%nat.

(** The sub-plots created in a trace, each with its cell, projection and
    label, in order. *)
Fixpoint subplots (tr : list PlotCall) : list (nat * nat * WCS * string) :=
  match tr with
  | [] => []
  | Subplot cell projection label :: tr' =>
      (cell, projection, label) :: subplots tr'
  | _ :: tr' => subplots tr'
  end.

(** The images shown in a trace, in order. *)
Fixpoint shown_images (tr : list PlotCall) : list RGBImage :=
  match tr with
  | [] => []
  | Imshow image_rgb _ :: tr' => image_rgb :: shown_images tr'
  | _ :: tr' => shown_images tr'
  end.

(** [entry] is the sub-plot and the image that belong to index [i] of the
    cutout set: the cell of flat index [i], the projection read from
    [wcs[i]], the label [str(GCR[i]["objectId"])], and the RGB composition
    of [images[i]]. *)
Definition drawn_of (cutouts : CutoutSet) (side i : nat)
    (entry : nat * nat * WCS * string * RGBImage) : Prop :=
  exists image header row,
    nth_error (images cutouts) i = Some image /\
    nth_error (wcs cutouts) i = Some header /\
    nth_error (GCR cutouts) i = Some row /\
    makeRGB image 2 8 = Ok (snd entry) /\
    astropy_WCS header = Ok (snd (fst (fst entry))) /\
    fst (fst (fst entry)) = cell_of side i /\
    snd (fst entry) = str_int (objectId row).
End PlotVocabulary.

(** The cutout set holding the entries of [c1] followed by those of [c2]. *)
Definition cutouts_app `{Lsst} (c1 c2 : CutoutSet) : CutoutSet :=
  mkCutouts (images c1 ++ images c2) (wcs c1 ++ wcs c2) (GCR c1 ++ GCR c2).

(** [int(np.sqrt(n)+1)] computed in binary64, as numpy and Python do. *)
Definition grid_side_f64 (n : Z) : result Z :=
  (x <~ float_of_int n ;;
   int_of_float (SFadd prec emax (SFsqrt prec emax x) one))%py.

(** ** A small concrete world, used to run the model *)

Module Demo.

(** A catalog with a fixed schema that returns two objects of tract 4850
    whatever the query. *)
Definition schema : list string :=
  ["objectId"; "ra"; "dec"; "tract"; "patch"; "mag_g"; "mag_i"].

Definition float_of (n : Z) : float := binary_normalize prec emax n 0 false.

Definition rows : list ObjectRow :=
  [ mkRow 1001 (float_of 60) (float_of (-30)) 4850 "1,1" [];
    mkRow 1002 (float_of 61) (float_of (-31)) 4850 "1,2" [] ].

Definition cat : Catalog :=
  mkCatalog
    (forallb (fun q => existsb (String.eqb q) schema))
    (fun _ _ _ => Ok rows).

(** A stack whose sky map has one tract, whose pixel grid is the sky grid,
    whose [Point2I] truncates, and whose exposures are named by tract,
    patch and band. *)
#[local] Instance stack : Lsst := {|
  SpherePoint := float * float;
  SkyMap := unit;
  TractInfo := unit;
  SkyWcs := unit;
  Point2I := Z * Z;
  Exposure := string;
  PropertyList := string;
  SpherePoint_degrees := fun a d => Ok (a, d);
  findTract := fun _ _ => Ok tt;
  tract_getWcs := fun _ => tt;
  skyToPixel := fun _ p => Ok (mkPoint2D (fst p) (snd p));
  Point2I_of_floats := fun p =>
    (x <~ int_of_float (fst p) ;; y <~ int_of_float (snd p) ;; Ok (x, y))%py;
  exposure_getWcs := fun _ => tt;
  getFitsMetadata := fun _ => Ok "header"
|}.

Definition butler : Butler :=
  mkButler (Ok tt)
    (fun bbox tract patch band =>
       Ok (str_int tract ++ "/" ++ patch ++ "/" ++ band)%string).

(** The cutout set of the two rows in the bands [i], [r], [g]. *)
Definition stamps : CutoutSet :=
  mkCutouts
    [["4850/1,1/i"; "4850/1,1/r"; "4850/1,1/g"];
     ["4850/1,2/i"; "4850/1,2/r"; "4850/1,2/g"]]
    ["header"; "header"]
    rows.

#[local] Instance plotting : Plotting := {|
  RGBImage := list string;
  WCS := string;
  makeRGB := fun image _ _ => Ok image;
  astropy_WCS := fun header => Ok header;
  ax_coords := fun _ => 2%nat
|}.

(** The services of one data release, [2.2i]. *)
Definition services : Services :=
  mkServices
    (fun _ _ => Ok ["dc2_object_run2.2i"])
    (fun name => if String.eqb name "dc2_object_run2.2i" then Ok cat
                 else Raise (Foreign "KeyError"))
    (fun version => if String.eqb version "2.2i" then Ok butler
                    else Raise (Foreign "NoResults")).

(** A stack none of whose operations raises: [Point2I] keeps the pair it is
    given. *)
#[local] Instance lenient_stack : Lsst := {|
  SpherePoint := float * float;
  SkyMap := unit;
  TractInfo := unit;
  SkyWcs := unit;
  Point2I := float * float;
  Exposure := string;
  PropertyList := string;
  SpherePoint_degrees := fun a d => Ok (a, d);
  findTract := fun _ _ => Ok tt;
  tract_getWcs := fun _ => tt;
  skyToPixel := fun _ p => Ok (mkPoint2D (fst p) (snd p));
  Point2I_of_floats := fun p => Ok p;
  exposure_getWcs := fun _ => tt;
  getFitsMetadata := fun _ => Ok "header"
|}.

Definition lenient_butler : @Butler lenient_stack :=
  @mkButler lenient_stack (Ok tt) (fun bbox tract patch band => Ok band).

End Demo.

(** ** Facts about the monad and the numpy helpers *)

Lemma str_lt_trans a b c : str_lt a b -> str_lt b c -> str_lt a c.
Proof.
  unfold str_lt. intros Hab Hbc.
  apply String_as_OT.cmp_lt in Hab. apply String_as_OT.cmp_lt in Hbc.
  apply String_as_OT.cmp_lt. eapply String_as_OT.lt_trans; eassumption.
Qed.

Lemma str_lt_irrefl a : ~ str_lt a a.
Proof.
  unfold str_lt. intros Hlt.
  assert (Heq : String.compare a a = Eq) by (apply String_as_OT.cmp_eq; reflexivity).
  congruence.
Qed.

Lemma str_gt_lt a b : String.compare a b = Gt -> str_lt b a.
Proof.
  unfold str_lt. intros Hgt. rewrite String.compare_antisym, Hgt. reflexivity.
Qed.

Lemma insert_unique_In x y l : In y (insert_unique x l) <-> y = x \/ In y l.
Proof.
  induction l as [|z l IH]; simpl.
  - intuition.
  - destruct (String.compare x z) eqn:Hc; simpl.
    + apply String.compare_eq_iff in Hc. subst z. intuition.
    + intuition.
    + rewrite IH. intuition.
Qed.

Lemma insert_unique_HdRel x z l :
  str_lt z x -> HdRel str_lt z l -> HdRel str_lt z (insert_unique x l).
Proof.
  intros Hzx Hhd. destruct l as [|w l]; simpl.
  - constructor. exact Hzx.
  - inversion Hhd; subst.
    destruct (String.compare x w); constructor; assumption.
Qed.

Lemma insert_unique_Sorted x l :
  Sorted str_lt l -> Sorted str_lt (insert_unique x l).
Proof.
  induction 1 as [|z l Hs IH Hhd]; simpl.
  - repeat constructor.
  - destruct (String.compare x z) eqn:Hc.
    + constructor; assumption.
    + constructor; [constructor; assumption | constructor; exact Hc].
    + constructor; [exact IH | apply insert_unique_HdRel; [apply str_gt_lt, Hc | exact Hhd]].
Qed.

Lemma np_unique_Sorted l : Sorted str_lt (np_unique l).
Proof.
  unfold np_unique. induction (map np_str l) as [|x xs IH]; simpl.
  - constructor.
  - apply insert_unique_Sorted, IH.
Qed.

Lemma np_unique_StronglySorted l : StronglySorted str_lt (np_unique l).
Proof.
  apply Sorted_StronglySorted; [|apply np_unique_Sorted].
  intros a b c. apply str_lt_trans.
Qed.

Lemma np_unique_In x l : In x (np_unique l) <-> In x (map np_str l).
Proof.
  unfold np_unique. induction (map np_str l) as [|y ys IH]; simpl.
  - tauto.
  - rewrite insert_unique_In, IH. intuition.
Qed.



Lemma base_columns_np_str : map np_str base_columns = base_columns.
Proof. reflexivity. Qed.




Lemma string_app_assoc (a b c : string) :
  ((a ++ b) ++ c = a ++ (b ++ c))%string.
Proof. induction a as [|x a IH]; simpl; [reflexivity | f_equal; exact IH]. Qed.

(** The loop of lines 69-70 builds the clauses joined by [" | "]. *)
Lemma fold_left_clauses ts t0 pre :
  fold_left
    (fun (filters : string) (t : Z) =>
       (filters ++ " | (tract == " ++ str_int t ++ ")")%string)
    ts (pre ++ "(tract == " ++ str_int t0 ++ ")")%string
  = (pre ++ tract_disjunction (t0 :: ts))%string.
Proof.
  revert t0 pre. induction ts as [|t1 ts IH]; intros t0 pre.
  - reflexivity.
  - cbn [fold_left].
    replace ((pre ++ "(tract == " ++ str_int t0 ++ ")") ++
             " | (tract == " ++ str_int t1 ++ ")")%string
      with ((pre ++ "(tract == " ++ str_int t0 ++ ")" ++ " | ") ++
            "(tract == " ++ str_int t1 ++ ")")%string.
    + rewrite IH. rewrite string_app_assoc.
      unfold tract_disjunction. cbn [map String.concat].
      rewrite !string_app_assoc. reflexivity.
    + rewrite !string_app_assoc. reflexivity.
Qed.

Lemma tract_filter_cons t ts :
  tract_filter (t :: ts) = Ok (tract_disjunction (t :: ts)).
Proof.
  unfold tract_filter. cbn [getitem nth_error rbind skipn].
  f_equal. exact (fold_left_clauses ts t EmptyString).
Qed.

(** ** [catalog_query] *)

Section CatalogQuery.
Variable cat : Catalog.
Variable query : string.

(** The run of [catalog_query], by cases on the schema check and on
    [tracts]. *)
Lemma catalog_query_run columns tracts :
  run (catalog_query cat query columns tracts) =
  let cs := columns_to_get columns in
  if has_quantities cat cs then
    match tracts with
    | None => ([HasQuantities cs true], Raise (UnboundLocalError "filters"))
    | Some [] => ([HasQuantities cs true], Raise IndexError)
    | Some (t :: ts) =>
        ([HasQuantities cs true;
          GetQuantities cs query (tract_disjunction (t :: ts))],
         match get_quantities cat cs query (tract_disjunction (t :: ts)) with
         | Ok objects => Ok (pd_DataFrame objects)
         | Raise e => Raise e
         end)
    end
  else ([HasQuantities cs false], Raise AssertionError).
Proof.
  unfold catalog_query, run. cbn zeta.
  destruct tracts as [[|t ts]|]; rewrite ?tract_filter_cons;
    unfold bind, emit, py_assert, lift, ret, raise;
    destruct (has_quantities cat (columns_to_get columns)); cbn;
    try reflexivity.
  destruct (get_quantities cat _ query _); reflexivity.
Qed.

End CatalogQuery.

(** C1. With [tracts = None] the call does not succeed: once the schema
    check has passed, reading the never-assigned local [filters] raises
    [UnboundLocalError], and [get_quantities] is not called at all; when the
    check fails the assertion raises.  The only catalog call made is
    [has_quantities]. *)
Theorem catalog_query_tracts_None_raises (cat : Catalog) (query : string)
    (columns : option (list string)) :
  run (catalog_query cat query columns None) =
  ([HasQuantities (columns_to_get columns)
      (has_quantities cat (columns_to_get columns))],
   Raise (if has_quantities cat (columns_to_get columns)
          then UnboundLocalError "filters" else AssertionError)).
Proof.
  rewrite catalog_query_run. cbn zeta.
  destruct (has_quantities cat (columns_to_get columns)); reflexivity.
Qed.

(** C2. With [tracts = []] and a catalog that has the requested columns,
    [catalog_query] raises [IndexError] at [tracts[0]], after the schema
    check and before any query is sent. *)
Theorem catalog_query_empty_tracts_raises (cat : Catalog) (query : string)
    (columns : option (list string)) :
  has_quantities cat (columns_to_get columns) = true ->
  run (catalog_query cat query columns (Some [])) =
  ([HasQuantities (columns_to_get columns) true], Raise IndexError).
Proof.
  intros Hok. rewrite catalog_query_run. cbn zeta. rewrite Hok. reflexivity.
Qed.

Lemma catalog_query_empty_tracts_raises_witness :
  has_quantities Demo.cat (columns_to_get (Some ["mag_i"])) = true /\
  run (catalog_query Demo.cat "mag_i < 24" (Some ["mag_i"]) (Some [])) =
  ([HasQuantities ["dec"; "mag_i"; "objectId"; "patch"; "ra"; "tract"] true],
   Raise IndexError).
Proof.
  split.
  - reflexivity.
  - apply (catalog_query_empty_tracts_raises Demo.cat "mag_i < 24"
             (Some ["mag_i"])).
    reflexivity.
Defined.


(** C4. For a non-empty tract list [t :: ts] and a catalog that has the
    requested columns, the native filter sent with the query is the
    disjunction [(tract == t) | ...] over the tracts in order, and the table
    returned is the one the catalog answers to that query. *)
Theorem catalog_query_tract_filter (cat : Catalog) (query : string)
    (columns : option (list string)) (t : Z) (ts : list Z) :
  has_quantities cat (columns_to_get columns) = true ->
  run (catalog_query cat query columns (Some (t :: ts))) =
  ([HasQuantities (columns_to_get columns) true;
    GetQuantities (columns_to_get columns) query (tract_disjunction (t :: ts))],
   (objects <~ get_quantities cat (columns_to_get columns) query
                 (tract_disjunction (t :: ts)) ;;
    Ok (pd_DataFrame objects))%py).
Proof.
  intros Hok. rewrite catalog_query_run. cbn zeta. rewrite Hok. reflexivity.
Qed.

Lemma catalog_query_tract_filter_witness :
  has_quantities Demo.cat (columns_to_get None) = true /\
  run (catalog_query Demo.cat "mag_i < 24" None (Some [10; 20; 30]%Z)) =
  ([HasQuantities ["objectId"; "ra"; "dec"; "tract"; "patch"] true;
    GetQuantities ["objectId"; "ra"; "dec"; "tract"; "patch"] "mag_i < 24"
      "(tract == 10) | (tract == 20) | (tract == 30)"],
   Ok Demo.rows).
Proof.
  split.
  - reflexivity.
  - apply (catalog_query_tract_filter Demo.cat "mag_i < 24" None 10 [20; 30]%Z).
    reflexivity.
Defined.

(** C10. With an extra-columns list, [catalog_query] does call the catalog
    with the names in strictly increasing order: the run always starts with
    the schema check on [np.unique] of the base columns plus the extras,
    and the query, sent when the check passes and [tracts] is a non-empty
    list, carries the same sorted list; these are all the catalog calls.
    The order the caller wrote is lost: [mag_i, mag_g] is requested as
    [dec, mag_g, mag_i, objectId, patch, ra, tract]. *)
Theorem catalog_query_columns_sorted (cat : Catalog) (query : string)
    (cols : list string) (tracts : option (list Z)) :
  StronglySorted str_lt (np_unique (base_columns ++ cols)) /\
  fst (run (catalog_query cat query (Some cols) tracts)) =
    HasQuantities (np_unique (base_columns ++ cols))
      (has_quantities cat (np_unique (base_columns ++ cols)))
    :: match tracts with
       | Some (t :: ts) =>
           if has_quantities cat (np_unique (base_columns ++ cols))
           then [GetQuantities (np_unique (base_columns ++ cols)) query
                   (tract_disjunction (t :: ts))]
           else []
       | _ => []
       end /\
  columns_to_get (Some ["mag_i"; "mag_g"]) =
    ["dec"; "mag_g"; "mag_i"; "objectId"; "patch"; "ra"; "tract"].
Proof.
  split; [|split].
  - apply np_unique_StronglySorted.
  - rewrite catalog_query_run. cbn zeta.
    change (columns_to_get (Some cols))
      with (np_unique (base_columns ++ cols)).
    destruct (has_quantities cat (np_unique (base_columns ++ cols)));
      [destruct tracts as [[|t ts]|]|destruct tracts as [[|t ts]|]];
      reflexivity.
  - reflexivity.
Qed.

(** ** [make_postage_stamps] *)

Lemma rbind_Ok {A B} (r : result A) (k : A -> result B) (b : B) :
  rbind r k = Ok b -> exists a, r = Ok a /\ k a = Ok b.
Proof.
  destruct r as [a|e]; simpl; intros Hk; [exists a; auto | discriminate].
Qed.

Lemma rmap_length {A B} (f : A -> result B) (xs : list A) (ys : list B) :
  rmap f xs = Ok ys -> List.length ys = List.length xs.
Proof.
  revert ys. induction xs as [|x xs IH]; simpl; intros ys Hmap.
  - injection Hmap as <-. reflexivity.
  - apply rbind_Ok in Hmap as (y & _ & Hmap).
    apply rbind_Ok in Hmap as (ys' & Hys' & Hmap).
    injection Hmap as <-. simpl. f_equal. apply IH, Hys'.
Qed.

Lemma band_letters_length (bands : string) :
  List.length (band_letters bands) = String.length bands.
Proof.
  unfold band_letters. rewrite length_map.
  induction bands as [|c bands IH]; simpl; [reflexivity | f_equal; exact IH].
Qed.

Section MakePostageStamps.
Context `{Lsst}.
Variable butler : Butler.
Variable skymap : SkyMap.
Variable cutout_size : Z.
Variable bands : string.

Lemma fetch_cutout_length bbox object_this cutout :
  fetch_cutout butler bbox object_this bands = Ok cutout ->
  List.length cutout = String.length bands.
Proof.
  unfold fetch_cutout. intros Hfetch.
  rewrite (rmap_length _ _ _ Hfetch). apply band_letters_length.
Qed.

(** One iteration appends exactly one entry to each of the three lists. *)
Lemma stamp_step_Ok cutouts object_this cutouts' :
  stamp_step butler skymap (mkExtentI cutout_size cutout_size) cutout_size
             bands cutouts object_this = Ok cutouts' ->
  exists entry,
    stamp_of butler skymap cutout_size bands object_this entry /\
    images cutouts' = images cutouts ++ [fst entry] /\
    wcs cutouts' = wcs cutouts ++ [snd entry] /\
    GCR cutouts' = GCR cutouts ++ [object_this].
Proof.
  unfold stamp_step. intros Hstep.
  apply rbind_Ok in Hstep as (bbox & Hbbox & Hstep).
  apply rbind_Ok in Hstep as (cutout & Hfetch & Hstep).
  cbn zeta in Hstep.
  apply rbind_Ok in Hstep as (first & Hfirst & Hstep).
  apply rbind_Ok in Hstep as (metadata & Hmeta & Hstep).
  injection Hstep as <-.
  exists (cutout, metadata). cbn.
  repeat split; try reflexivity.
  exists bbox, first. cbn. auto.
Qed.

(** The loop appends one entry per row, in row order. *)
Lemma stamp_loop_Ok objects cutouts cutouts' :
  stamp_loop (stamp_step butler skymap (mkExtentI cutout_size cutout_size)
                         cutout_size bands)
             objects cutouts = Ok cutouts' ->
  exists entries,
    Forall2 (stamp_of butler skymap cutout_size bands) objects entries /\
    images cutouts' = images cutouts ++ map fst entries /\
    wcs cutouts' = wcs cutouts ++ map snd entries /\
    GCR cutouts' = GCR cutouts ++ objects.
Proof.
  revert cutouts. induction objects as [|object_this rest IH];
    intros cutouts Hloop; cbn [stamp_loop] in Hloop.
  - injection Hloop as <-. exists []. cbn. rewrite !app_nil_r. auto.
  - apply rbind_Ok in Hloop as (mid & Hstep & Hloop).
    apply stamp_step_Ok in Hstep as (entry & Hentry & Hi & Hw & Hg).
    apply IH in Hloop as (entries & Hall & Hi' & Hw' & Hg').
    exists (entry :: entries). cbn [map].
    rewrite Hi', Hw', Hg', Hi, Hw, Hg, <- !app_assoc. cbn [app]. auto.
Qed.

Lemma stamp_of_length object_this entry :
  stamp_of butler skymap cutout_size bands object_this entry ->
  List.length (fst entry) = String.length bands.
Proof.
  intros (bbox & first & _ & Hfetch & _).
  eapply fetch_cutout_length, Hfetch.
Qed.

End MakePostageStamps.

(** C5. When [make_postage_stamps] returns a cutout set for a table of [N]
    rows and a band string of [B] characters, the lists [images], [wcs] and
    [GCR] have [N] entries each, every entry of [images] has [B] images,
    [GCR] is the input table, and at each index [i] the images and the WCS
    metadata are the ones computed from row [i]. *)
Theorem make_postage_stamps_parallel `{Lsst} (butler : Butler)
    (objects : ObjectTable) (cutout_size : Z) (bands : string)
    (cutouts : CutoutSet) :
  make_postage_stamps butler objects cutout_size bands = Ok cutouts ->
  List.length (images cutouts) = List.length objects /\
  List.length (wcs cutouts) = List.length objects /\
  List.length (GCR cutouts) = List.length objects /\
  Forall (fun cutout => List.length cutout = String.length bands)
         (images cutouts) /\
  GCR cutouts = objects /\
  exists skymap,
    get_deepCoadd_skyMap butler = Ok skymap /\
    forall i object_this,
      nth_error objects i = Some object_this ->
      exists cutout metadata,
        nth_error (images cutouts) i = Some cutout /\
        nth_error (wcs cutouts) i = Some metadata /\
        nth_error (GCR cutouts) i = Some object_this /\
        stamp_of butler skymap cutout_size bands object_this
                 (cutout, metadata).
Proof.
  unfold make_postage_stamps. intros Hrun.
  apply rbind_Ok in Hrun as (skymap & Hsky & Hloop). cbn zeta in Hloop.
  apply stamp_loop_Ok in Hloop as (entries & Hall & Hi & Hw & Hg).
  cbn [images wcs GCR app] in Hi, Hw, Hg.
  pose proof (Forall2_length Hall) as Hlen.
  rewrite Hi, Hw, Hg, !length_map.
  repeat split; auto.
  - clear -Hall. induction Hall as [|o e os es Hoe _ IH]; cbn [map].
    + constructor.
    + constructor; [eapply stamp_of_length, Hoe | exact IH].
  - exists skymap. split; [exact Hsky|].
    clear -Hall. induction Hall as [|o e os es Hoe _ IH];
      intros i object_this Hnth.
    + destruct i; discriminate.
    + destruct i as [|i]; cbn [nth_error map] in *.
      * injection Hnth as <-. exists (fst e), (snd e).
        destruct e. cbn. auto.
      * apply IH, Hnth.
Qed.

Lemma make_postage_stamps_parallel_witness :
  @make_postage_stamps Demo.stack Demo.butler Demo.rows 100 "irg"
    = Ok Demo.stamps /\
  List.length (images Demo.stamps) = 2%nat /\
  List.length (wcs Demo.stamps) = 2%nat /\
  List.length (GCR Demo.stamps) = 2%nat /\
  Forall (fun cutout => List.length cutout = 3%nat) (images Demo.stamps).
Proof.
  assert (Hrun : @make_postage_stamps Demo.stack Demo.butler Demo.rows 100
                   "irg" = Ok Demo.stamps) by (vm_compute; reflexivity).
  split; [exact Hrun|].
  destruct (@make_postage_stamps_parallel Demo.stack Demo.butler Demo.rows
              100 "irg" Demo.stamps Hrun) as (Hi & Hw & Hg & Hb & _).
  repeat split; assumption.
Defined.

(** C8. For an empty table and a butler that has a sky map,
    [make_postage_stamps] returns the cutout set whose three lists are
    empty, whatever the cutout size and the bands. *)
Theorem make_postage_stamps_empty `{Lsst} (butler : Butler) (skymap : SkyMap)
    (cutout_size : Z) (bands : string) :
  get_deepCoadd_skyMap butler = Ok skymap ->
  make_postage_stamps butler [] cutout_size bands = Ok (mkCutouts [] [] []).
Proof.
  intros Hsky. unfold make_postage_stamps. rewrite Hsky. reflexivity.
Qed.

Lemma make_postage_stamps_empty_witness :
  @get_deepCoadd_skyMap Demo.stack Demo.butler = Ok tt /\
  @make_postage_stamps Demo.stack Demo.butler [] 100 "irg"
    = Ok (@mkCutouts Demo.stack [] [] []).
Proof.
  split.
  - reflexivity.
  - apply (@make_postage_stamps_empty Demo.stack Demo.butler tt 100 "irg").
    reflexivity.
Defined.

(** ** [display_cutouts] *)

Lemma bind_lift {E A B} (r : result A) (k : A -> M E B) (tr : list E) :
  bind (lift r) k tr =
  match r with Ok a => k a tr | Raise e => (tr, Raise e) end.
Proof. unfold bind, lift. destruct r; reflexivity. Qed.

Lemma bind_emit {E B} (e : E) (k : unit -> M E B) (tr : list E) :
  bind (emit e) k tr = k tt (tr ++ [e]).
Proof. reflexivity. Qed.

Lemma cell_of_inj side i j :
  (0 < side)%nat -> cell_of side i = cell_of side j -> i = j.
Proof.
  unfold cell_of. intros Hside Hcell. injection Hcell as Hdiv Hmod.
  rewrite (Nat.div_mod_eq i side), (Nat.div_mod_eq j side), Hdiv, Hmod.
  reflexivity.
Qed.

Lemma NoDup_map_cells side a k :
  (0 < side)%nat -> NoDup (map (cell_of side) (seq a k)).
Proof.
  intros Hside. revert a. induction k as [|k IH]; intros a; cbn [seq map].
  - constructor.
  - constructor; [|apply IH].
    rewrite in_map_iff. intros (j & Hcell & Hin).
    apply cell_of_inj in Hcell; [|exact Hside].
    apply in_seq in Hin. lia.
Qed.

Lemma grid_side_enough n : (n < grid_side n * grid_side n)%nat.
Proof.
  unfold grid_side. rewrite Nat.add_1_r. apply (Nat.sqrt_spec n). lia.
Qed.

Section DisplayCutouts.
Context `{Plotting}.
Variable cutouts : CutoutSet.
Variable side : nat.

Lemma subplot_cells_app (tr1 tr2 : list PlotCall) :
  subplot_cells (tr1 ++ tr2) = subplot_cells tr1 ++ subplot_cells tr2.
Proof.
  induction tr1 as [|c tr1 IH]; cbn [app subplot_cells]; [reflexivity|].
  destruct c; rewrite IH; reflexivity.
Qed.

(** The loop over [ax.coords] returns and creates no sub-plot. *)
Lemma coords_loop (a m : nat) (tr : list PlotCall) :
  exists ext,
    for_each (seq a m)
      (fun c => emit (SetTicklabel c true 10) ;;; emit (SetAxislabel c "" 0))%py
      tr = (tr ++ ext, Ok tt) /\
    subplot_cells ext = [].
Proof.
  revert a tr. induction m as [|m IH]; intros a tr; cbn [seq for_each].
  - exists []. rewrite app_nil_r. split; reflexivity.
  - destruct (IH (S a) ((tr ++ [SetTicklabel a true 10]) ++ [SetAxislabel a "" 0]))
      as (ext & Hrun & Hcells).
    exists ([SetTicklabel a true 10; SetAxislabel a "" 0] ++ ext).
    split; [|rewrite subplot_cells_app, Hcells; reflexivity].
    replace (tr ++ [SetTicklabel a true 10; SetAxislabel a "" 0] ++ ext)
      with (((tr ++ [SetTicklabel a true 10]) ++ [SetAxislabel a "" 0]) ++ ext)
      by (rewrite <- !app_assoc; reflexivity).
    exact Hrun.
Qed.

(** One iteration either raises before creating its sub-plot, or creates
    exactly the sub-plot of cell [i] and returns. *)
Lemma draw_cutout_run (i : nat) (tr : list PlotCall) :
  exists ext r,
    draw_cutout cutouts side i tr = (tr ++ ext, r) /\
    (subplot_cells ext = [] /\ r <> Ok tt \/
     subplot_cells ext = [cell_of side i] /\ (i < side * side)%nat /\
     r = Ok tt).
Proof.
  unfold draw_cutout.
  rewrite bind_lift. destruct (getitem (images cutouts) i) as [image|e];
    [|exists [], (Raise e); rewrite app_nil_r; split; [reflexivity | left; split; [reflexivity | discriminate]]].
  rewrite bind_lift. destruct (makeRGB image 2 8) as [image_rgb|e];
    [|exists [], (Raise e); rewrite app_nil_r; split; [reflexivity | left; split; [reflexivity | discriminate]]].
  rewrite bind_lift. unfold GridSpec_getitem.
  destruct (Nat.ltb_spec i (side * side)) as [Hlt|Hge];
    [|exists [], (Raise IndexError); rewrite app_nil_r; split; [reflexivity | left; split; [reflexivity | discriminate]]].
  rewrite bind_lift. destruct (getitem (wcs cutouts) i) as [header|e];
    [|exists [], (Raise e); rewrite app_nil_r; split; [reflexivity | left; split; [reflexivity | discriminate]]].
  rewrite bind_lift. destruct (astropy_WCS header) as [projection|e];
    [|exists [], (Raise e); rewrite app_nil_r; split; [reflexivity | left; split; [reflexivity | discriminate]]].
  rewrite bind_lift. destruct (getitem (GCR cutouts) i) as [row|e];
    [|exists [], (Raise e); rewrite app_nil_r; split; [reflexivity | left; split; [reflexivity | discriminate]]].
  rewrite !bind_emit.
  destruct (coords_loop 0 (ax_coords projection)
              ((tr ++ [Subplot (i / side, i mod side)%nat projection
                         (str_int (objectId row))])
               ++ [Imshow image_rgb "lower"]))
    as (ext & Hrun & Hcells).
  exists ([Subplot (cell_of side i) projection (str_int (objectId row));
           Imshow image_rgb "lower"] ++ ext), (Ok tt).
  split.
  - rewrite Hrun, <- !app_assoc. reflexivity.
  - right. rewrite subplot_cells_app, Hcells. auto.
Qed.

(** The loop creates the sub-plots of cells [a], [a+1], ... in order and
    stops at the first iteration that raises. *)
Lemma draw_loop (m a : nat) (tr : list PlotCall) :
  exists ext r k,
    for_each (seq a m) (draw_cutout cutouts side) tr = (tr ++ ext, r) /\
    (k <= m)%nat /\
    subplot_cells ext = map (cell_of side) (seq a k) /\
    (r = Ok tt <-> k = m) /\
    (forall i, In i (seq a k) -> (i < side * side)%nat).
Proof.
  revert a tr. induction m as [|m IH]; intros a tr; cbn [seq for_each].
  - exists [], (Ok tt), 0%nat. rewrite app_nil_r. cbn.
    repeat split; auto; contradiction.
  - unfold bind at 1.
    destruct (draw_cutout_run a tr) as (ext1 & r1 & Hrun1 & Hcase).
    rewrite Hrun1.
    destruct Hcase as [(Hcells & Hraise) | (Hcells & Hlt & ->)].
    + destruct r1 as [[]|e]; [contradiction|].
      exists ext1, (Raise e), 0%nat. cbn [seq map].
      repeat split; auto; try lia; try discriminate; try contradiction.
    + destruct (IH (S a) (tr ++ ext1)) as (ext2 & r & k & Hrun2 & Hk & Hc2 & Hr & Hin).
      exists (ext1 ++ ext2), r, (S k). 
      rewrite Hrun2, app_assoc, subplot_cells_app, Hcells, Hc2. cbn [seq map app].
      repeat split; auto; try lia.
      * intros Hok. f_equal. apply Hr, Hok.
      * intros Hkm. apply Hr. lia.
      * intros i [<-|Hi]; [exact Hlt | apply Hin, Hi].
Qed.

End DisplayCutouts.


(** C9. [display_cutouts] never reads [cutout_size]: two calls on the same
    cutout set make the same plotting calls and end the same way, whatever
    the two sizes. *)
Theorem display_cutouts_ignores_cutout_size `{Plotting} (cutouts : CutoutSet)
    (s1 s2 : Z) :
  run (display_cutouts cutouts s1) = run (display_cutouts cutouts s2).
Proof. reflexivity. Qed.

(** ** When the two methods return *)

Lemma is_ok_Ok {A} (r : result A) : is_ok r = true -> exists a, r = Ok a.
Proof. destruct r as [a|e]; [exists a; reflexivity | discriminate]. Qed.

Lemma rmap_returns {A B} (f : A -> result B) (xs : list A) :
  (forall x, is_ok (f x) = true) -> exists ys, rmap f xs = Ok ys.
Proof.
  intros Hf. induction xs as [|x xs (ys & IH)]; cbn [rmap].
  - exists []. reflexivity.
  - destruct (is_ok_Ok _ (Hf x)) as (y & ->). cbn [rbind]. rewrite IH.
    exists (y :: ys). reflexivity.
Qed.

Section StampsReturn.
Context `{Lsst}.
Variable butler : Butler.
Variable cutout_size : Z.
Variable bands : string.

(** The bounding box is built from the pair
    [(center.x - cutout_size*0.5, center.y - cutout_size*0.5)], converted
    by [Point2I], and the extent [(cutout_size, cutout_size)]. *)
Lemma cutout_bbox_shape skymap object_this bbox :
  cutout_bbox skymap (mkExtentI cutout_size cutout_size) cutout_size
              object_this = Ok bbox ->
  box_dimensions bbox = mkExtentI cutout_size cutout_size /\
  exists radec tractInfo center half_size,
    SpherePoint_degrees (ra object_this) (dec object_this) = Ok radec /\
    findTract skymap radec = Ok tractInfo /\
    skyToPixel (tract_getWcs tractInfo) radec = Ok center /\
    float_of_int cutout_size = Ok half_size /\
    Point2I_of_floats
      (SFsub prec emax (getX center) (SFmul prec emax half_size half),
       SFsub prec emax (getY center) (SFmul prec emax half_size half))
    = Ok (box_corner bbox).
Proof.
  unfold cutout_bbox, corner_coordinate. intros Hbox.
  apply rbind_Ok in Hbox as (radec & Hradec & Hbox).
  apply rbind_Ok in Hbox as (tractInfo & Htract & Hbox).
  apply rbind_Ok in Hbox as (center & Hcenter & Hbox).
  apply rbind_Ok in Hbox as (x & Hx & Hbox).
  apply rbind_Ok in Hbox as (y & Hy & Hbox).
  apply rbind_Ok in Hbox as (corner & Hcorner & Hbox).
  injection Hbox as <-.
  apply rbind_Ok in Hx as (size & Hsize & Hx). injection Hx as <-.
  rewrite Hsize in Hy. cbn [rbind] in Hy. injection Hy as <-.
  split; [reflexivity|].
  exists radec, tractInfo, center, size. cbn [box_corner]. auto.
Qed.

Hypothesis skymap_ok : is_ok (get_deepCoadd_skyMap butler) = true.
Hypothesis size_ok : is_ok (float_of_int cutout_size) = true.
Hypothesis SpherePoint_ok : forall a d, is_ok (SpherePoint_degrees a d) = true.
Hypothesis findTract_ok : forall s p, is_ok (findTract s p) = true.
Hypothesis skyToPixel_ok : forall w p, is_ok (skyToPixel w p) = true.
Hypothesis Point2I_ok : forall p, is_ok (Point2I_of_floats p) = true.
Hypothesis sub_ok :
  forall bbox t p band, is_ok (get_deepCoadd_sub butler bbox t p band) = true.
Hypothesis metadata_ok : forall w, is_ok (getFitsMetadata w) = true.

Lemma cutout_bbox_returns skymap extent object_this :
  exists bbox, cutout_bbox skymap extent cutout_size object_this = Ok bbox.
Proof.
  unfold cutout_bbox, corner_coordinate.
  destruct (is_ok_Ok _ (SpherePoint_ok (ra object_this) (dec object_this)))
    as (radec & ->). cbn [rbind].
  destruct (is_ok_Ok _ (findTract_ok skymap radec)) as (tractInfo & ->).
  cbn [rbind].
  destruct (is_ok_Ok _ (skyToPixel_ok (tract_getWcs tractInfo) radec))
    as (center & ->). cbn [rbind].
  destruct (is_ok_Ok _ size_ok) as (size & ->). cbn [rbind].
  match goal with
  | |- context [Point2I_of_floats ?p] =>
      destruct (is_ok_Ok _ (Point2I_ok p)) as (corner & ->)
  end.
  cbn [rbind]. eexists. reflexivity.
Qed.

(** With at least one band and collaborators that do not raise, every
    iteration of the loop returns. *)
Lemma stamp_loop_returns skymap extent objects cutouts :
  bands <> EmptyString ->
  exists cutouts',
    stamp_loop (stamp_step butler skymap extent cutout_size bands)
               objects cutouts = Ok cutouts'.
Proof.
  intros Hbands. revert cutouts.
  induction objects as [|object_this rest IH]; intros cutouts;
    cbn [stamp_loop].
  - exists cutouts. reflexivity.
  - unfold stamp_step at 1.
    destruct (cutout_bbox_returns skymap extent object_this) as (bbox & ->).
    cbn [rbind].
    destruct (rmap_returns
                (fun band => get_deepCoadd_sub butler bbox (tract object_this)
                               (patch object_this) band)
                (band_letters bands)) as (cutout & Hfetch).
    { intros band. apply sub_ok. }
    unfold fetch_cutout. rewrite Hfetch. cbn [rbind]. cbn zeta.
    apply rmap_length in Hfetch. rewrite band_letters_length in Hfetch.
    destruct cutout as [|first cutout'].
    { destruct bands; [contradiction | discriminate]. }
    cbn [getitem nth_error rbind].
    destruct (is_ok_Ok _ (metadata_ok (exposure_getWcs first)))
      as (metadata & ->). cbn [rbind].
    apply IH.
Qed.

(** X9. With at least one band, a cutout size that fits a float, and a
    butler and a stack that do not raise, [make_postage_stamps] returns a
    cutout set for every table. *)
Lemma make_postage_stamps_returns objects :
  bands <> EmptyString ->
  exists cutouts,
    make_postage_stamps butler objects cutout_size bands = Ok cutouts.
Proof.
  intros Hbands. unfold make_postage_stamps.
  destruct (is_ok_Ok _ skymap_ok) as (skymap & ->). cbn [rbind]. cbn zeta.
  apply stamp_loop_returns, Hbands.
Qed.

(** X8. With an empty band string and a table that has at least one row,
    [make_postage_stamps] raises [IndexError]: the list comprehension of the
    first row yields no image and [cutout[0]] fails, although the stack did
    not raise. *)
Lemma make_postage_stamps_no_bands object_this rest :
  bands = EmptyString ->
  make_postage_stamps butler (object_this :: rest) cutout_size bands
    = Raise IndexError.
Proof.
  intros ->. unfold make_postage_stamps.
  destruct (is_ok_Ok _ skymap_ok) as (skymap & ->). cbn [rbind]. cbn zeta.
  cbn [stamp_loop]. unfold stamp_step at 1.
  destruct (cutout_bbox_returns skymap (mkExtentI cutout_size cutout_size)
              object_this) as (bbox & ->).
  reflexivity.
Qed.

End StampsReturn.

Lemma getitem_lt {A} (xs : list A) (i : nat) :
  (i < List.length xs)%nat -> exists x, getitem xs i = Ok x.
Proof.
  intros Hlt. unfold getitem.
  destruct (nth_error xs i) as [x|] eqn:Hnth; [exists x; reflexivity|].
  apply nth_error_None in Hnth. lia.
Qed.

Section DisplayReturns.
Context `{Plotting}.
Variable cutouts : CutoutSet.

Hypothesis wcs_aligned :
  List.length (wcs cutouts) = List.length (images cutouts).
Hypothesis GCR_aligned :
  List.length (GCR cutouts) = List.length (images cutouts).
Hypothesis makeRGB_ok : forall image a b, is_ok (makeRGB image a b) = true.
Hypothesis WCS_ok : forall header, is_ok (astropy_WCS header) = true.

Lemma draw_cutout_returns (i : nat) (tr : list PlotCall) :
  (i < List.length (images cutouts))%nat ->
  exists tr',
    draw_cutout cutouts (grid_side (List.length (images cutouts))) i tr
    = (tr', Ok tt).
Proof.
  intros Hi. unfold draw_cutout.
  pose proof (grid_side_enough (List.length (images cutouts))) as Hgrid.
  destruct (getitem_lt (images cutouts) i Hi) as (image & ->).
  rewrite bind_lift.
  destruct (is_ok_Ok _ (makeRGB_ok image 2 8)) as (image_rgb & ->).
  rewrite bind_lift. unfold GridSpec_getitem.
  destruct (Nat.ltb_spec i (grid_side (List.length (images cutouts))
                            * grid_side (List.length (images cutouts))))
    as [_|Hge]; [|lia].
  destruct (getitem_lt (wcs cutouts) i) as (header & ->); [lia|].
  rewrite !bind_lift.
  destruct (is_ok_Ok _ (WCS_ok header)) as (projection & ->).
  destruct (getitem_lt (GCR cutouts) i) as (row & ->); [lia|].
  rewrite !bind_lift, !bind_emit.
  match goal with
  | |- context [for_each (seq 0 ?m) ?body ?t] =>
      destruct (coords_loop 0 m t) as (ext & Hrun & _)
  end.
  rewrite Hrun. eexists. reflexivity.
Qed.

Lemma draw_loop_returns (m a : nat) (tr : list PlotCall) :
  (a + m <= List.length (images cutouts))%nat ->
  exists tr',
    for_each (seq a m)
      (draw_cutout cutouts (grid_side (List.length (images cutouts)))) tr
    = (tr', Ok tt).
Proof.
  revert a tr. induction m as [|m IH]; intros a tr Hle; cbn [seq for_each].
  - exists tr. reflexivity.
  - unfold bind at 1.
    destruct (draw_cutout_returns a tr) as (tr1 & ->); [lia|].
    apply IH. lia.
Qed.

(** On a cutout set whose three lists have the same length, and with an
    RGB composition and a WCS parser that do not raise, [display_cutouts]
    returns. *)
Lemma display_cutouts_returns (cutout_size : Z) :
  snd (run (display_cutouts cutouts cutout_size)) = Ok tt.
Proof.
  unfold display_cutouts, run. cbv zeta. rewrite !bind_emit.
  match goal with
  | |- context [for_each (seq 0 ?m) ?body ?t] =>
      destruct (draw_loop_returns m 0 t) as (tr' & ->); [lia|]
  end.
  reflexivity.
Qed.

End DisplayReturns.

(** The mosaic of the two demo objects: a 2 x 2 grid, the objects in cells
    [(0, 0)] and [(0, 1)]. *)
Example display_cutouts_demo :
  exists cutouts,
    @make_postage_stamps Demo.stack Demo.butler Demo.rows 100 "irg"
      = Ok cutouts /\
    subplot_cells (fst (run (@display_cutouts Demo.stack Demo.plotting
                               cutouts 100)))
      = [(0, 0); (0, 1)]%nat /\
    snd (run (@display_cutouts Demo.stack Demo.plotting cutouts 100)) = Ok tt.
Proof. eexists. repeat split; reflexivity. Qed.

(** ** The grid side in binary64 *)

(** X13. For every number of cutouts below 4096, the expression
    [int(np.sqrt(n)+1)] evaluated in binary64 (conversion of [n], square
    root, addition of [1.0], truncation) is exactly [floor(sqrt n) + 1];
    no rounding error reaches the integer part. *)
Lemma grid_side_f64_agrees (n : nat) :
  (n < 4096)%nat -> grid_side_f64 (Z.of_nat n) = Ok (Z.of_nat (grid_side n)).
Proof.
  intros Hn.
  assert (Hall :
    forallb (fun m =>
               match grid_side_f64 (Z.of_nat m) with
               | Ok s => Z.eqb s (Z.of_nat (grid_side m))
               | Raise _ => false
               end) (seq 0 4096) = true) by (vm_compute; reflexivity).
  rewrite forallb_forall in Hall.
  specialize (Hall n). 
  destruct (grid_side_f64 (Z.of_nat n)) as [s|e].
  - f_equal. apply Z.eqb_eq, Hall, in_seq. lia.
  - discriminate Hall. apply in_seq. lia.
Qed.

(** Just below [2^52] the two computations part: the sum [sqrt(n) + 1]
    rounds up to the next integer. *)
Example grid_side_f64_large :
  grid_side_f64 4503599627370495 = Ok 67108865%Z /\
  (Z.sqrt 4503599627370495 + 1 = 67108864)%Z.
Proof. split; vm_compute; reflexivity. Qed.

(** ** Further properties of [catalog_query] *)

Lemma sorted_unique_ext (l1 l2 : list string) :
  StronglySorted str_lt l1 -> StronglySorted str_lt l2 ->
  (forall x, In x l1 <-> In x l2) -> l1 = l2.
Proof.
  intros Hs1. revert l2.
  induction Hs1 as [|a l1 Hs1 IH Ha]; intros l2 Hs2 Hext.
  - destruct l2 as [|b l2]; [reflexivity|].
    destruct (proj2 (Hext b) (or_introl eq_refl)).
  - destruct Hs2 as [|b l2 Hs2 Hb].
    + destruct (proj1 (Hext a) (or_introl eq_refl)).
    + rewrite Forall_forall in Ha, Hb.
      assert (Hab : a = b).
      { destruct (proj1 (Hext a) (or_introl eq_refl)) as [Heq|Hin]; [auto|].
        destruct (proj2 (Hext b) (or_introl eq_refl)) as [Heq|Hin']; [auto|].
        exfalso. apply (str_lt_irrefl a).
        eapply str_lt_trans; [apply Ha, Hin' | apply Hb, Hin]. }
      subst b. f_equal. apply IH; [exact Hs2|].
      intros x. split; intros Hx.
      * destruct (proj1 (Hext x) (or_intror Hx)) as [<-|Hin]; [|exact Hin].
        exfalso. exact (str_lt_irrefl a (Ha a Hx)).
      * destruct (proj2 (Hext x) (or_intror Hx)) as [<-|Hin]; [|exact Hin].
        exfalso. exact (str_lt_irrefl a (Hb a Hx)).
Qed.

Lemma np_unique_ext (l1 l2 : list string) :
  (forall x, In x l1 <-> In x l2) -> np_unique l1 = np_unique l2.
Proof.
  intros Hext.
  apply sorted_unique_ext; try apply np_unique_StronglySorted.
  intros x. rewrite !np_unique_In, !in_map_iff.
  split; intros (y & Hy & Hin); exists y; (split; [exact Hy | apply Hext, Hin]).
Qed.

(** X1. When the catalog lacks one of the requested columns the call stops
    at the assertion: it raises [AssertionError], whatever the tracts, and
    no query is sent. *)
Theorem catalog_query_schema_mismatch (cat : Catalog) (query : string)
    (columns : option (list string)) (tracts : option (list Z)) :
  has_quantities cat (columns_to_get columns) = false ->
  run (catalog_query cat query columns tracts) =
  ([HasQuantities (columns_to_get columns) false], Raise AssertionError).
Proof.
  intros Hno. rewrite catalog_query_run. cbn zeta. rewrite Hno. reflexivity.
Qed.

Lemma catalog_query_schema_mismatch_witness :
  has_quantities Demo.cat (columns_to_get (Some ["redshift"])) = false /\
  run (catalog_query Demo.cat "mag_i < 24" (Some ["redshift"])
         (Some [4850]%Z)) =
  ([HasQuantities
      ["dec"; "objectId"; "patch"; "ra"; "redshift"; "tract"] false],
   Raise AssertionError).
Proof.
  split.
  - reflexivity.
  - apply (catalog_query_schema_mismatch Demo.cat "mag_i < 24"
             (Some ["redshift"]) (Some [4850]%Z)).
    reflexivity.
Defined.

(** X2. [catalog_query] returns a table only in one situation: the catalog
    has the requested columns, [tracts] is a non-empty list, and the catalog
    answers the query; the table is then the catalog's answer. *)
Theorem catalog_query_returns_iff (cat : Catalog) (query : string)
    (columns : option (list string)) (tracts : option (list Z))
    (table : ObjectTable) :
  snd (run (catalog_query cat query columns tracts)) = Ok table <->
  has_quantities cat (columns_to_get columns) = true /\
  exists t ts,
    tracts = Some (t :: ts) /\
    get_quantities cat (columns_to_get columns) query
      (tract_disjunction (t :: ts)) = Ok table.
Proof.
  rewrite catalog_query_run. cbn zeta.
  destruct (has_quantities cat (columns_to_get columns)).
  - destruct tracts as [[|t ts]|]; cbn [snd].
    + split; [discriminate|]. intros (_ & t & ts & Habs & _). discriminate.
    + destruct (get_quantities cat (columns_to_get columns) query
                  (tract_disjunction (t :: ts))) as [objects|e] eqn:Hget.
      * unfold pd_DataFrame. split.
        -- intros Heq. injection Heq as <-. split; [reflexivity|].
           exists t, ts. split; [reflexivity | exact Hget].
        -- intros (_ & t' & ts' & Heq & Hget').
           injection Heq as <- <-. rewrite Hget in Hget'. exact Hget'.
      * split; [discriminate|].
        intros (_ & t' & ts' & Heq & Hget').
        injection Heq as <- <-. rewrite Hget in Hget'. discriminate.
    + split; [discriminate|]. intros (_ & t & ts & Habs & _). discriminate.
  - cbn [snd]. split; [discriminate|]. intros (Habs & _). discriminate.
Qed.

(** X3. With an extra-columns list, a name is requested exactly when it is
    one of the five base columns or one of the extras (as numpy stores it):
    no extra is dropped and no other column is added. *)
Theorem columns_to_get_exact (cols : list string) (c : string) :
  In c (columns_to_get (Some cols)) <->
  In c base_columns \/ In c (map np_str cols).
Proof.
  unfold columns_to_get.
  rewrite np_unique_In, map_app, base_columns_np_str, in_app_iff.
  reflexivity.
Qed.

(** X4. The run of [catalog_query] depends on the extra columns only as a
    set: listing the same names in another order, or more than once, gives
    the same catalog calls and the same outcome. *)
Theorem catalog_query_extras_as_set (cat : Catalog) (query : string)
    (cols cols' : list string) (tracts : option (list Z)) :
  (forall c, In c cols <-> In c cols') ->
  run (catalog_query cat query (Some cols) tracts) =
  run (catalog_query cat query (Some cols') tracts).
Proof.
  intros Hext.
  assert (Hcols : columns_to_get (Some cols) = columns_to_get (Some cols')).
  { unfold columns_to_get. apply np_unique_ext.
    intros x. rewrite !in_app_iff, Hext. reflexivity. }
  rewrite !catalog_query_run. cbn zeta. rewrite Hcols. reflexivity.
Qed.

Lemma catalog_query_extras_as_set_witness :
  (forall c, In c ["mag_i"; "mag_g"] <-> In c ["mag_g"; "mag_i"; "mag_g"]) /\
  run (catalog_query Demo.cat "mag_i < 24" (Some ["mag_i"; "mag_g"])
         (Some [4850]%Z)) =
  run (catalog_query Demo.cat "mag_i < 24" (Some ["mag_g"; "mag_i"; "mag_g"])
         (Some [4850]%Z)).
Proof.
  assert (Hext : forall c,
             In c ["mag_i"; "mag_g"] <-> In c ["mag_g"; "mag_i"; "mag_g"])
    by (intros c; simpl; tauto).
  split.
  - exact Hext.
  - apply (catalog_query_extras_as_set Demo.cat "mag_i < 24"
             ["mag_i"; "mag_g"] ["mag_g"; "mag_i"; "mag_g"] (Some [4850]%Z)).
    exact Hext.
Defined.

(** X5. Passing an extra-columns list, even an empty one, never gives the
    request of [columns = None]: with a list the names are sorted, without
    one they are sent in the order [objectId, ra, dec, tract, patch], which
    is not sorted. *)
Theorem columns_to_get_list_differs_from_None (cols : list string) :
  columns_to_get (Some cols) <> columns_to_get None /\
  columns_to_get (Some []) = ["dec"; "objectId"; "patch"; "ra"; "tract"].
Proof.
  split; [|reflexivity].
  intros Heq.
  pose proof (np_unique_StronglySorted (base_columns ++ cols)) as Hs.
  unfold columns_to_get in Heq. rewrite Heq in Hs. unfold base_columns in Hs.
  apply StronglySorted_inv in Hs as (Hs & _).
  apply StronglySorted_inv in Hs as (_ & Hall).
  apply Forall_inv in Hall. discriminate Hall.
Qed.

(** ** Further properties of [make_postage_stamps] *)

Lemma make_postage_stamps_returns_witness :
  exists cutouts,
    @make_postage_stamps Demo.lenient_stack Demo.lenient_butler Demo.rows
      100 "irg" = Ok cutouts.
Proof.
  apply (@make_postage_stamps_returns Demo.lenient_stack Demo.lenient_butler
           100 "irg");
    try (intros; reflexivity).
  discriminate.
Defined.

Lemma make_postage_stamps_no_bands_witness :
  @make_postage_stamps Demo.lenient_stack Demo.lenient_butler Demo.rows
    100 "" = Raise IndexError.
Proof.
  apply (@make_postage_stamps_no_bands Demo.lenient_stack Demo.lenient_butler
           100 "");
    intros; reflexivity.
Defined.

Section StampsCompose.
Context `{Lsst}.
Variable butler : Butler.
Variable skymap : SkyMap.
Variable cutout_extent : ExtentI.
Variable cutout_size : Z.
Variable bands : string.

Lemma cutouts_app_assoc (c1 c2 c3 : CutoutSet) :
  cutouts_app (cutouts_app c1 c2) c3 = cutouts_app c1 (cutouts_app c2 c3).
Proof.
  unfold cutouts_app. cbn [images wcs GCR]. rewrite <- !app_assoc. reflexivity.
Qed.

Lemma cutouts_app_nil_l (c : CutoutSet) :
  cutouts_app (mkCutouts [] [] []) c = c.
Proof. destruct c. reflexivity. Qed.

Lemma stamp_loop_app step (objects1 objects2 : list ObjectRow)
    (cutouts : CutoutSet) :
  stamp_loop step (objects1 ++ objects2) cutouts =
  rbind (stamp_loop step objects1 cutouts) (stamp_loop step objects2).
Proof.
  revert cutouts. induction objects1 as [|o rest IH]; intros cutouts;
    cbn [app stamp_loop rbind].
  - reflexivity.
  - destruct (step cutouts o) as [mid|e]; cbn [rbind]; [apply IH | reflexivity].
Qed.

(** An iteration only appends: what it adds does not depend on the entries
    already collected. *)
Lemma stamp_step_frame (cutouts : CutoutSet) (object_this : ObjectRow) :
  stamp_step butler skymap cutout_extent cutout_size bands cutouts object_this
  = rbind (stamp_step butler skymap cutout_extent cutout_size bands
             (mkCutouts [] [] []) object_this)
          (fun added => Ok (cutouts_app cutouts added)).
Proof.
  unfold stamp_step.
  destruct (cutout_bbox skymap cutout_extent cutout_size object_this)
    as [bbox|e]; cbn [rbind]; [|reflexivity].
  destruct (fetch_cutout butler bbox object_this bands) as [cutout|e];
    cbn [rbind]; [|reflexivity].
  cbn zeta. destruct (getitem cutout 0) as [first|e]; cbn [rbind];
    [|reflexivity].
  destruct (getFitsMetadata (exposure_getWcs first)) as [metadata|e];
    cbn [rbind]; reflexivity.
Qed.

Lemma stamp_loop_frame (objects : list ObjectRow) (cutouts : CutoutSet) :
  stamp_loop (stamp_step butler skymap cutout_extent cutout_size bands)
             objects cutouts
  = rbind (stamp_loop (stamp_step butler skymap cutout_extent cutout_size
                                  bands)
                      objects (mkCutouts [] [] []))
          (fun added => Ok (cutouts_app cutouts added)).
Proof.
  revert cutouts. induction objects as [|o rest IH]; intros cutouts;
    cbn [stamp_loop].
  - cbn [rbind]. unfold cutouts_app. cbn [images wcs GCR].
    rewrite !app_nil_r. destruct cutouts. reflexivity.
  - rewrite (stamp_step_frame cutouts o).
    destruct (stamp_step butler skymap cutout_extent cutout_size bands
                (mkCutouts [] [] []) o) as [added|e]; cbn [rbind];
      [|reflexivity].
    rewrite (IH (cutouts_app cutouts added)), (IH added).
    destruct (stamp_loop _ rest (mkCutouts [] [] [])) as [more|e];
      cbn [rbind]; [|reflexivity].
    rewrite cutouts_app_assoc. reflexivity.
Qed.

End StampsCompose.

(** X6. Extraction distributes over the concatenation of tables: the stamps
    of [objects1 ++ objects2] are the stamps of [objects1] followed by those
    of [objects2], and the call on the concatenation raises what the first
    failing part raises. *)
Theorem make_postage_stamps_app `{Lsst} (butler : Butler)
    (objects1 objects2 : ObjectTable) (cutout_size : Z) (bands : string) :
  make_postage_stamps butler (objects1 ++ objects2) cutout_size bands =
  (c1 <~ make_postage_stamps butler objects1 cutout_size bands ;;
   c2 <~ make_postage_stamps butler objects2 cutout_size bands ;;
   Ok (cutouts_app c1 c2))%py.
Proof.
  unfold make_postage_stamps.
  destruct (get_deepCoadd_skyMap butler) as [skymap|e]; cbn [rbind];
    [|reflexivity].
  cbv zeta. rewrite stamp_loop_app.
  destruct (stamp_loop _ objects1 (mkCutouts [] [] [])) as [c1|e];
    cbn [rbind]; [|reflexivity].
  apply stamp_loop_frame.
Qed.

(** X7. A failure is fatal for the whole batch: when the call raises on a
    table, it raises the same exception on every table that starts with it;
    the rows that follow are not looked at and nothing is returned for the
    rows already done. *)
Theorem make_postage_stamps_prefix_raises `{Lsst} (butler : Butler)
    (objects more : ObjectTable) (cutout_size : Z) (bands : string)
    (e : exn) :
  make_postage_stamps butler objects cutout_size bands = Raise e ->
  make_postage_stamps butler (objects ++ more) cutout_size bands = Raise e.
Proof.
  unfold make_postage_stamps.
  destruct (get_deepCoadd_skyMap butler) as [skymap|e']; cbn [rbind];
    [|auto].
  cbv zeta. intros Hraise. rewrite stamp_loop_app, Hraise. reflexivity.
Qed.

Lemma make_postage_stamps_prefix_raises_witness :
  @make_postage_stamps Demo.stack Demo.butler Demo.rows 100 ""
    = Raise IndexError /\
  @make_postage_stamps Demo.stack Demo.butler (Demo.rows ++ Demo.rows) 100 ""
    = Raise IndexError.
Proof.
  split.
  - reflexivity.
  - apply (@make_postage_stamps_prefix_raises Demo.stack Demo.butler
             Demo.rows Demo.rows 100 "" IndexError).
    reflexivity.
Defined.

(** ** Further properties of [display_cutouts] *)

Lemma grid_side_f64_agrees_witness :
  (100 < 4096)%nat /\ grid_side_f64 100 = Ok 11%Z.
Proof.
  split.
  - lia.
  - apply (grid_side_f64_agrees 100). lia.
Defined.



Section DisplayContent.
Context `{Plotting}.
Variable cutouts : CutoutSet.
Variable side : nat.

Lemma subplots_app (tr1 tr2 : list PlotCall) :
  subplots (tr1 ++ tr2) = subplots tr1 ++ subplots tr2.
Proof.
  induction tr1 as [|c tr1 IH]; cbn [app subplots]; [reflexivity|].
  destruct c; rewrite IH; reflexivity.
Qed.

Lemma shown_images_app (tr1 tr2 : list PlotCall) :
  shown_images (tr1 ++ tr2) = shown_images tr1 ++ shown_images tr2.
Proof.
  induction tr1 as [|c tr1 IH]; cbn [app shown_images]; [reflexivity|].
  destruct c; rewrite IH; reflexivity.
Qed.

(** The loop over [ax.coords] creates no sub-plot and shows no image. *)
Lemma coords_loop_content (a m : nat) (tr : list PlotCall) :
  exists ext,
    for_each (seq a m)
      (fun c => emit (SetTicklabel c true 10) ;;; emit (SetAxislabel c "" 0))%py
      tr = (tr ++ ext, Ok tt) /\
    subplots ext = [] /\ shown_images ext = [].
Proof.
  revert a tr. induction m as [|m IH]; intros a tr; cbn [seq for_each].
  - exists []. rewrite app_nil_r. repeat split; reflexivity.
  - destruct (IH (S a) ((tr ++ [SetTicklabel a true 10])
                        ++ [SetAxislabel a "" 0]))
      as (ext & Hrun & Hsub & Himg).
    exists ([SetTicklabel a true 10; SetAxislabel a "" 0] ++ ext).
    split; [|rewrite subplots_app, shown_images_app, Hsub, Himg;
             split; reflexivity].
    replace (tr ++ [SetTicklabel a true 10; SetAxislabel a "" 0] ++ ext)
      with (((tr ++ [SetTicklabel a true 10]) ++ [SetAxislabel a "" 0]) ++ ext)
      by (rewrite <- !app_assoc; reflexivity).
    exact Hrun.
Qed.

Lemma getitem_Ok {A} (xs : list A) (i : nat) (x : A) :
  getitem xs i = Ok x -> nth_error xs i = Some x.
Proof.
  unfold getitem. destruct (nth_error xs i); intros Heq;
    [injection Heq as <-; reflexivity | discriminate].
Qed.

(** An iteration that returns has created one sub-plot and shown one image,
    those of index [i]. *)
Lemma draw_cutout_Ok (i : nat) (tr tr' : list PlotCall) :
  draw_cutout cutouts side i tr = (tr', Ok tt) ->
  exists entry ext,
    tr' = tr ++ ext /\
    subplots ext = [fst entry] /\
    shown_images ext = [snd entry] /\
    drawn_of cutouts side i entry.
Proof.
  unfold draw_cutout.
  rewrite bind_lift.
  destruct (getitem (images cutouts) i) as [image|e] eqn:Himage;
    [|discriminate].
  rewrite bind_lift.
  destruct (makeRGB image 2 8) as [image_rgb|e] eqn:Hrgb; [|discriminate].
  rewrite bind_lift. unfold GridSpec_getitem.
  destruct (Nat.ltb_spec i (side * side)) as [Hlt|Hge]; [|discriminate].
  rewrite bind_lift.
  destruct (getitem (wcs cutouts) i) as [header|e] eqn:Hheader;
    [|discriminate].
  rewrite bind_lift.
  destruct (astropy_WCS header) as [projection|e] eqn:Hproj; [|discriminate].
  rewrite bind_lift.
  destruct (getitem (GCR cutouts) i) as [row|e] eqn:Hrow; [|discriminate].
  rewrite !bind_emit.
  destruct (coords_loop_content 0 (ax_coords projection)
              ((tr ++ [Subplot (i / side, i mod side)%nat projection
                         (str_int (objectId row))])
               ++ [Imshow image_rgb "lower"]))
    as (ext & Hrun & Hsub & Himg).
  rewrite Hrun. intros Heq. injection Heq as <-.
  exists (cell_of side i, projection, str_int (objectId row), image_rgb),
         ([Subplot (cell_of side i) projection (str_int (objectId row));
           Imshow image_rgb "lower"] ++ ext).
  rewrite subplots_app, shown_images_app, Hsub, Himg, <- !app_assoc.
  repeat split.
  exists image, header, row. cbn [fst snd].
  apply getitem_Ok in Himage, Hheader, Hrow. auto 10.
Qed.

Lemma draw_loop_Ok (m a : nat) (tr tr' : list PlotCall) :
  for_each (seq a m) (draw_cutout cutouts side) tr = (tr', Ok tt) ->
  exists ext,
    tr' = tr ++ ext /\
    Forall2 (drawn_of cutouts side) (seq a m)
            (combine (subplots ext) (shown_images ext)) /\
    List.length (subplots ext) = m /\
    List.length (shown_images ext) = m.
Proof.
  revert a tr. induction m as [|m IH]; intros a tr; cbn [seq for_each].
  - intros Heq. injection Heq as <-. exists []. rewrite app_nil_r.
    repeat split; constructor.
  - unfold bind at 1.
    destruct (draw_cutout cutouts side a tr) as [tr1 [[]|e]] eqn:Hone;
      [|discriminate].
    intros Hrest.
    apply draw_cutout_Ok in Hone as (entry & ext1 & -> & Hsub & Himg & Hdrawn).
    apply IH in Hrest as (ext2 & -> & Hall & Hls & Hli).
    exists (ext1 ++ ext2).
    rewrite subplots_app, shown_images_app, Hsub, Himg, app_assoc.
    cbn [app combine List.length].
    split; [reflexivity|]. split; [|split; [f_equal; exact Hls | f_equal; exact Hli]].
    constructor; [exact Hdrawn | exact Hall].
Qed.

End DisplayContent.

(** C7. For a cutout set with [n] entries whose three lists are aligned,
    and with an RGB composition and a WCS parser that do not raise,
    [display_cutouts] returns after laying out a grid of
    [floor(sqrt n) + 1] rows and as many columns, which has more than [n]
    cells, and creating [n] sub-plots: the one of entry [i] at the cell of
    flat index [i], with the projection of [wcs[i]], the label of [GCR[i]]
    and the image of [images[i]].  The cells are pairwise distinct and
    inside the grid. *)
Theorem display_cutouts_grid `{Plotting} (cutouts : CutoutSet)
    (cutout_size : Z) :
  List.length (wcs cutouts) = List.length (images cutouts) ->
  List.length (GCR cutouts) = List.length (images cutouts) ->
  (forall image a b, is_ok (makeRGB image a b) = true) ->
  (forall header, is_ok (astropy_WCS header) = true) ->
  exists rest,
    run (display_cutouts cutouts cutout_size) =
      (Figure 36 36 100
         :: GridSpec (Nat.sqrt (List.length (images cutouts)) + 1)
                     (Nat.sqrt (List.length (images cutouts)) + 1)
         :: rest, Ok tt) /\
    (List.length (images cutouts)
       < (Nat.sqrt (List.length (images cutouts)) + 1)
         * (Nat.sqrt (List.length (images cutouts)) + 1))%nat /\
    subplot_cells rest =
      map (cell_of (Nat.sqrt (List.length (images cutouts)) + 1))
          (seq 0 (List.length (images cutouts))) /\
    NoDup (subplot_cells rest) /\
    Forall (fun cell =>
              (fst cell < Nat.sqrt (List.length (images cutouts)) + 1)%nat /\
              (snd cell < Nat.sqrt (List.length (images cutouts)) + 1)%nat)
           (subplot_cells rest) /\
    List.length (subplots rest) = List.length (images cutouts) /\
    List.length (shown_images rest) = List.length (images cutouts) /\
    Forall2 (drawn_of cutouts (Nat.sqrt (List.length (images cutouts)) + 1))
            (seq 0 (List.length (images cutouts)))
            (combine (subplots rest) (shown_images rest)).
Proof.
  intros Hw Hg Hrgb Hwcs.
  pose proof (display_cutouts_returns cutouts Hw Hg Hrgb Hwcs cutout_size)
    as Hok.
  revert Hok. unfold display_cutouts, run. cbv zeta.
  set (n := List.length (images cutouts)).
  change (Nat.sqrt n + 1)%nat with (grid_side n).
  rewrite !bind_emit. cbn [app].
  destruct (draw_loop cutouts (grid_side n) n 0
              [Figure 36 36 100; GridSpec (grid_side n) (grid_side n)])
    as (ext & r & k & Hrun & _ & Hcells & Hr & Hin).
  rewrite Hrun. cbn [snd]. intros ->.
  rewrite (proj1 Hr eq_refl) in Hcells, Hin.
  destruct (draw_loop_Ok cutouts (grid_side n) n 0 _ _ Hrun)
    as (ext' & Heq & Hall & Hls & Hli).
  apply app_inv_head in Heq. subst ext'.
  assert (Hside : (0 < grid_side n)%nat) by (unfold grid_side; lia).
  exists ext. cbn [app]. rewrite Hcells.
  split; [reflexivity|].
  split; [apply grid_side_enough|].
  split; [reflexivity|].
  split; [apply NoDup_map_cells, Hside|].
  split; [|auto].
  apply Forall_forall. intros cell Hcell.
  apply in_map_iff in Hcell as (i & <- & Hi). apply Hin in Hi.
  unfold cell_of. cbn [fst snd]. split.
  - apply Nat.Div0.div_lt_upper_bound. exact Hi.
  - apply Nat.mod_upper_bound. lia.
Qed.

Lemma display_cutouts_grid_witness :
  exists rest,
    run (@display_cutouts Demo.stack Demo.plotting Demo.stamps 100) =
      (@Figure Demo.stack Demo.plotting 36 36 100 :: GridSpec 2 2 :: rest,
       Ok tt) /\
    subplot_cells rest = [(0, 0); (0, 1)]%nat /\
    List.length (shown_images rest) = 2%nat.
Proof.
  destruct (@display_cutouts_grid Demo.stack Demo.plotting Demo.stamps 100
              eq_refl eq_refl (fun _ _ _ => eq_refl) (fun _ => eq_refl))
    as (rest & Hrun & _ & Hcells & _ & _ & _ & Hshown & _).
  exists rest. split; [exact Hrun|]. split; [exact Hcells | exact Hshown].
Defined.

(** X11. When [display_cutouts] returns, it has created exactly one sub-plot
    and shown exactly one image per entry, in index order, and the ones of
    index [i] all come from index [i] of the three lists: the cell of flat
    index [i], the projection built from [wcs[i]], the label
    [str(GCR[i]["objectId"])] and the RGB composition of [images[i]]. *)
Theorem display_cutouts_content `{Plotting} (cutouts : CutoutSet)
    (cutout_size : Z) (tr : list PlotCall) :
  run (display_cutouts cutouts cutout_size) = (tr, Ok tt) ->
  List.length (subplots tr) = List.length (images cutouts) /\
  List.length (shown_images tr) = List.length (images cutouts) /\
  Forall2 (drawn_of cutouts (grid_side (List.length (images cutouts))))
          (seq 0 (List.length (images cutouts)))
          (combine (subplots tr) (shown_images tr)).
Proof.
  unfold display_cutouts, run. cbv zeta. rewrite !bind_emit. intros Hrun.
  apply draw_loop_Ok in Hrun as (ext & -> & Hall & Hls & Hli).
  cbn [app subplots shown_images]. auto.
Qed.

Lemma display_cutouts_content_witness :
  exists tr,
    run (@display_cutouts Demo.stack Demo.plotting Demo.stamps 100)
      = (tr, Ok tt) /\
    subplots tr = [((0, 0)%nat, "header", "1001");
                   ((0, 1)%nat, "header", "1002")] /\
    List.length (shown_images tr) = 2%nat.
Proof.
  eexists. split; [reflexivity|].
  split; [reflexivity|].
  apply (@display_cutouts_content Demo.stack Demo.plotting Demo.stamps 100).
  reflexivity.
Defined.

(** X10. The output of [make_postage_stamps] can always be displayed: with
    an RGB composition and a WCS parser that do not raise,
    [display_cutouts] returns on it and places the [N] objects of the table
    in the cells of flat indices [0 .. N-1] of the grid for [N]. *)
Theorem stamps_then_display `{Plotting} (butler : Butler)
    (objects : ObjectTable) (cutout_size display_size : Z) (bands : string)
    (cutouts : CutoutSet) :
  make_postage_stamps butler objects cutout_size bands = Ok cutouts ->
  (forall image a b, is_ok (makeRGB image a b) = true) ->
  (forall header, is_ok (astropy_WCS header) = true) ->
  exists tr,
    run (display_cutouts cutouts display_size) = (tr, Ok tt) /\
    subplot_cells tr =
      map (cell_of (grid_side (List.length objects)))
          (seq 0 (List.length objects)).
Proof.
  intros Hstamps Hrgb Hwcs.
  unfold make_postage_stamps in Hstamps.
  apply rbind_Ok in Hstamps as (skymap & _ & Hloop). cbv zeta in Hloop.
  apply stamp_loop_Ok in Hloop as (entries & Hall & Hi & Hw & Hg).
  cbn [images wcs GCR app] in Hi, Hw, Hg.
  pose proof (Forall2_length Hall) as Hlen.
  assert (Hn : List.length (images cutouts) = List.length objects)
    by (rewrite Hi, length_map; auto).
  assert (Hwn : List.length (wcs cutouts) = List.length (images cutouts))
    by (rewrite Hi, Hw, !length_map; reflexivity).
  assert (Hgn : List.length (GCR cutouts) = List.length (images cutouts))
    by (rewrite Hg, Hn; reflexivity).
  pose proof (display_cutouts_returns cutouts Hwn Hgn Hrgb Hwcs display_size)
    as Hok.
  revert Hok. unfold display_cutouts, run. cbv zeta. rewrite !bind_emit.
  rewrite Hn.
  destruct (draw_loop cutouts (grid_side (List.length objects))
              (List.length objects) 0
              ([] ++ [Figure 36 36 100]
                  ++ [GridSpec (grid_side (List.length objects))
                               (grid_side (List.length objects))]))
    as (ext & r & k & Hrun & _ & Hcells & Hr & _).
  cbn [app] in Hrun |- *. rewrite Hrun. cbn [snd]. intros ->.
  eexists. split; [reflexivity|].
  rewrite (proj1 Hr eq_refl) in Hcells.
  change (Figure 36 36 100 :: GridSpec (grid_side (List.length objects))
            (grid_side (List.length objects)) :: ext)
    with ([Figure 36 36 100; GridSpec (grid_side (List.length objects))
             (grid_side (List.length objects))] ++ ext).
  rewrite subplot_cells_app, Hcells. reflexivity.
Qed.

Lemma stamps_then_display_witness :
  exists tr,
    run (@display_cutouts Demo.stack Demo.plotting Demo.stamps 50)
      = (tr, Ok tt) /\
    subplot_cells tr = [(0, 0); (0, 1)]%nat.
Proof.
  assert (Hrun : @make_postage_stamps Demo.stack Demo.butler Demo.rows 100
                   "irg" = Ok Demo.stamps) by (vm_compute; reflexivity).
  apply (@stamps_then_display Demo.stack Demo.plotting Demo.butler Demo.rows
           100 50 "irg" Demo.stamps Hrun);
    intros; reflexivity.
Defined.

(** ** [catalog_setup] and [Candidates.__init__] *)

Section SetupFacts.
Context `{Lsst}.
Variable services : Services.
Variable version : string.

(** The run of [catalog_setup], by cases on what the three services
    answer. *)
Lemma catalog_setup_run :
  run (catalog_setup services version) =
  match get_available_catalogs services true version with
  | Raise e => ([GetAvailableCatalogs true version], Raise e)
  | Ok _ =>
      match load_catalog services ("dc2_object_run" ++ version)%string with
      | Raise e =>
          ([GetAvailableCatalogs true version;
            LoadCatalog ("dc2_object_run" ++ version)%string], Raise e)
      | Ok cat =>
          ([GetAvailableCatalogs true version;
            LoadCatalog ("dc2_object_run" ++ version)%string;
            GetButler version],
           match get_butler services version with
           | Ok butler => Ok (cat, butler)
           | Raise e => Raise e
           end)
      end
  end.
Proof.
  unfold catalog_setup, run. rewrite bind_emit, bind_lift.
  destruct (get_available_catalogs services true version); [|reflexivity].
  rewrite bind_emit, bind_lift.
  destruct (load_catalog services ("dc2_object_run" ++ version)%string);
    [|reflexivity].
  rewrite bind_emit, bind_lift.
  destruct (get_butler services version); reflexivity.
Qed.

End SetupFacts.

(** X14. The list of available catalogs is never looked at: two worlds that
    load the same catalog and give the same butler for a version, and whose
    listings both return, lead [catalog_setup] through the same calls to the
    same outcome, whatever the listings contain. *)
Theorem catalog_setup_ignores_listing `{Lsst} (services services' : Services)
    (version : string) :
  is_ok (get_available_catalogs services true version) = true ->
  is_ok (get_available_catalogs services' true version) = true ->
  load_catalog services ("dc2_object_run" ++ version)%string =
    load_catalog services' ("dc2_object_run" ++ version)%string ->
  get_butler services version = get_butler services' version ->
  run (catalog_setup services version) = run (catalog_setup services' version).
Proof.
  intros Hl Hl' Hcat Hbutler. rewrite !catalog_setup_run.
  destruct (get_available_catalogs services true version); [|discriminate].
  destruct (get_available_catalogs services' true version); [|discriminate].
  rewrite Hcat, Hbutler. reflexivity.
Qed.

Lemma catalog_setup_ignores_listing_witness :
  run (@catalog_setup Demo.stack Demo.services "2.2i") =
  run (@catalog_setup Demo.stack
         (@mkServices Demo.stack (fun _ _ => Ok [])
            (@load_catalog Demo.stack Demo.services)
            (@get_butler Demo.stack Demo.services))
         "2.2i").
Proof.
  apply (@catalog_setup_ignores_listing Demo.stack Demo.services
           (@mkServices Demo.stack (fun _ _ => Ok [])
              (@load_catalog Demo.stack Demo.services)
              (@get_butler Demo.stack Demo.services))
           "2.2i");
    reflexivity.
Defined.

(** X15. When the catalog of the version cannot be loaded, [catalog_setup]
    raises what [load_catalog] raised and does not ask for a butler: its
    calls are the listing and the load of ["dc2_object_run" + version]. *)
Theorem catalog_setup_load_fails `{Lsst} (services : Services)
    (version : string) (names : list string) (e : exn) :
  get_available_catalogs services true version = Ok names ->
  load_catalog services ("dc2_object_run" ++ version)%string = Raise e ->
  run (catalog_setup services version) =
  ([GetAvailableCatalogs true version;
    LoadCatalog ("dc2_object_run" ++ version)%string], Raise e).
Proof.
  intros Hl Hcat. rewrite catalog_setup_run, Hl, Hcat. reflexivity.
Qed.

Lemma catalog_setup_load_fails_witness :
  run (@catalog_setup Demo.stack Demo.services "9.9") =
  ([GetAvailableCatalogs true "9.9"; LoadCatalog "dc2_object_run9.9"],
   Raise (Foreign "KeyError")).
Proof.
  apply (@catalog_setup_load_fails Demo.stack Demo.services "9.9"
           ["dc2_object_run2.2i"] (Foreign "KeyError"));
    reflexivity.
Defined.

(** X16. A [Candidates] object that has been constructed holds the catalog
    loaded under the name ["dc2_object_run" + version] and the butler of
    the same version, and its construction made exactly three service
    calls: the listing, the load, the butler. *)
Theorem init_handles `{Lsst} (services : Services) (version : string)
    (tr : list ServiceCall) (self : Self) :
  run (__init__ services version) = (tr, Ok self) ->
  load_catalog services ("dc2_object_run" ++ version)%string
    = Ok (self_cat self) /\
  get_butler services version = Ok (self_butler self) /\
  tr = [GetAvailableCatalogs true version;
        LoadCatalog ("dc2_object_run" ++ version)%string;
        GetButler version].
Proof.
  unfold __init__, run, bind.
  pose proof (catalog_setup_run services version) as Hrun.
  unfold run in Hrun. rewrite Hrun. clear Hrun.
  destruct (get_available_catalogs services true version); [|discriminate].
  destruct (load_catalog services ("dc2_object_run" ++ version)%string)
    as [cat|]; [|discriminate].
  destruct (get_butler services version) as [butler|]; [|discriminate].
  unfold ret. cbn [fst snd]. intros Heq. injection Heq as <- <-.
  auto.
Qed.

Lemma init_handles_witness :
  @load_catalog Demo.stack Demo.services "dc2_object_run2.2i" = Ok Demo.cat /\
  @get_butler Demo.stack Demo.services "2.2i" = Ok Demo.butler.
Proof.
  destruct (@init_handles Demo.stack Demo.services "2.2i"
              [GetAvailableCatalogs true "2.2i";
               LoadCatalog "dc2_object_run2.2i"; GetButler "2.2i"]
              (@mkSelf Demo.stack Demo.cat Demo.butler) eq_refl)
    as (Hcat & Hbutler & _).
  split; [exact Hcat | exact Hbutler].
Defined.

(** ** From the table to the mosaic *)

Lemma skipn_nth_error {A} (xs : list A) (a : nat) (x : A) :
  nth_error xs a = Some x -> skipn a xs = x :: skipn (S a) xs.
Proof.
  revert a. induction xs as [|y xs IH]; intros [|a] Hnth;
    try discriminate.
  - injection Hnth as <-. reflexivity.
  - cbn [skipn]. apply (IH a Hnth).
Qed.

Lemma drawn_labels `{Plotting} (cutouts : CutoutSet) (side : nat) (m : nat) :
  forall (a : nat) (subs : list (nat * nat * WCS * string))
         (imgs : list RGBImage),
    List.length subs = m -> List.length imgs = m ->
    List.length (GCR cutouts) = (a + m)%nat ->
    Forall2 (drawn_of cutouts side) (seq a m) (combine subs imgs) ->
    map snd subs =
    map (fun row => str_int (objectId row)) (skipn a (GCR cutouts)).
Proof.
  induction m as [|m IH]; intros a subs imgs Hls Hli Hlen Hall.
  - destruct subs; [|discriminate]. rewrite skipn_all2 by lia. reflexivity.
  - destruct subs as [|sub subs]; [discriminate|].
    destruct imgs as [|img imgs]; [discriminate|].
    cbn [seq combine] in Hall. inversion Hall as [|? ? ? ? Hone Hrest]; subst.
    destruct Hone as (image & header & row & _ & _ & Hrow & _ & _ & _ & Hlabel).
    cbn [fst snd] in Hlabel.
    rewrite (skipn_nth_error _ _ _ Hrow). cbn [map]. f_equal; [exact Hlabel|].
    apply (IH (S a) subs imgs); auto. lia.
Qed.

(** X17. The mosaic follows the table: when the stamps extracted from a
    table are displayed and the display returns, the labels of the
    sub-plots, in the order of creation, are the object identifiers of the
    rows of the table, in table order. *)
Theorem mosaic_labels_follow_table `{Plotting} (butler : Butler)
    (objects : ObjectTable) (cutout_size display_size : Z) (bands : string)
    (cutouts : CutoutSet) (tr : list PlotCall) :
  make_postage_stamps butler objects cutout_size bands = Ok cutouts ->
  run (display_cutouts cutouts display_size) = (tr, Ok tt) ->
  map snd (subplots tr) = map (fun row => str_int (objectId row)) objects.
Proof.
  intros Hstamps Hrun.
  unfold make_postage_stamps in Hstamps.
  apply rbind_Ok in Hstamps as (skymap & _ & Hloop). cbv zeta in Hloop.
  apply stamp_loop_Ok in Hloop as (entries & Hall & Hi & _ & Hg).
  cbn [images GCR app] in Hi, Hg.
  pose proof (Forall2_length Hall) as Hlen.
  revert Hrun. unfold display_cutouts, run. cbv zeta. rewrite !bind_emit.
  intros Hrun.
  apply draw_loop_Ok in Hrun as (ext & -> & Hdrawn & Hls & Hli).
  cbn [app subplots].
  rewrite (drawn_labels cutouts
             (grid_side (List.length (images cutouts)))
             (List.length (images cutouts)) 0
             (subplots ext) (shown_images ext) Hls Hli);
    [rewrite Hg; reflexivity | | exact Hdrawn].
  rewrite Hg, Hi, length_map. cbn [Nat.add]. exact Hlen.
Qed.

Lemma mosaic_labels_follow_table_witness :
  exists tr,
    run (@display_cutouts Demo.stack Demo.plotting Demo.stamps 100)
      = (tr, Ok tt) /\
    map snd (subplots tr) = ["1001"; "1002"].
Proof.
  assert (Hrun : @make_postage_stamps Demo.stack Demo.butler Demo.rows 100
                   "irg" = Ok Demo.stamps) by (vm_compute; reflexivity).
  eexists. split; [reflexivity|].
  apply (@mosaic_labels_follow_table Demo.stack Demo.plotting Demo.butler
           Demo.rows 100 100 "irg" Demo.stamps _ Hrun).
  reflexivity.
Defined.
